(** * Plugin pipelines of alerta (alerta/utils/api.py)

    A shallow embedding of the five hook pipelines [process_alert],
    [process_action], [process_note], [process_status] and
    [process_delete].  Plugins, the router and the alert model are
    external collaborators: each of their calls transforms an opaque
    world [W], may raise, and is recorded in a trace of events, so that
    statements such as "no hook is invoked" or "no resync call is made"
    are statements about the trace a pipeline produces. *)

From Stdlib Require Import List String ZArith.
Import ListNotations.
Local Open Scope string_scope.
Local Open Scope list_scope.

Set Implicit Arguments.

(** ** Exceptions *)

(** The exception classes the pipelines name in their [except] clauses
    or raise themselves, together with a few ordinary builtins a plugin
    can raise.  Every value of the model is an instance of Python's
    [Exception]; conditions outside it (KeyboardInterrupt, SystemExit)
    are not part of the model. *)
Inductive ExcClass : Type :=
  | Exception
  | TypeError
  | RuntimeError
  | NotImplementedError
  | SyntaxError
  | ValueError
  | KeyError
  | AttributeError
  | OSError
  | AlertaException
  | RejectException
  | HeartbeatReceived
  | BlackoutPeriod
  | RateLimit
  | ForwardingLoop
  | InvalidAction
  | ApiError.

Definition ExcClass_eq_dec (c d : ExcClass) : {c = d} + {c <> d}.
Proof. decide equality. Defined.

Definition class_eqb (c d : ExcClass) : bool :=
  if ExcClass_eq_dec c d then true else false.

(** The class declarations of alerta.exceptions are not among the
    sources.  The builtin part of the hierarchy is Python's.  The seven
    domain classes are taken as the source uses them: every [except]
    clause names one by one the conditions it means, next to
    [AlertaException], so none of the seven derives from another; each
    is an exception of its own below [Exception].  (Which builtin they
    derive from plays no part: no clause names it.)  [ApiError], the
    processing error the pipelines raise, is an ordinary [Exception]. *)
Definition parent (c : ExcClass) : option ExcClass :=
  match c with
  | Exception => None
  | NotImplementedError => Some RuntimeError
  | _ => Some Exception
  end.

(** The class itself followed by its bases, nearest first. *)
Fixpoint mro (fuel : nat) (c : ExcClass) : list ExcClass :=
  c :: match fuel with
       | O => []
       | S k => match parent c with
                | Some d => mro k d
                | None => []
                end
       end.

Definition issubclass (c d : ExcClass) : bool :=
  existsb (class_eqb d) (mro 4 c).

(** An exception instance: its class and [str(e)]. *)
Record Exc : Type := mkExc { exc_class : ExcClass; str : string }.

(** [except (C1, ..., Cn)] matches [e] when [e] is an instance of one
    of the listed classes. *)
Definition isinstance (e : Exc) (classes : list ExcClass) : bool :=
  existsb (issubclass (exc_class e)) classes.

(** ** Data *)

(** Modelled from the spec: alerta.models.alert is not among the
    sources.  An alert has an identity, a suppressed flag, a tags
    collection and an attributes mapping; these are the fields the
    pipelines read or assign. *)
Record Alert : Type := mkAlert {
  alert_id : string;
  is_suppressed : bool;
  tags : list string;
  attributes : list (string * string)
}.

(** [alert.attributes = attrs] *)
Definition set_attributes (alert : Alert) (attrs : list (string * string)) : Alert :=
  {| alert_id := alert_id alert;
     is_suppressed := is_suppressed alert;
     tags := tags alert;
     attributes := attrs |}.

(** The configuration value the router hands out; opaque to the pipelines. *)
Definition Config : Type := list (string * string).

(** What [take_action] may return, by the cases [process_action]
    distinguishes with [isinstance] and [len]. *)
Inductive ActionResult : Type :=
  | ActNone
  | ActAlert (alert : Alert)
  | ActTuple4 (alert : Alert) (action text : string) (timeout : option Z)
  | ActTuple3 (alert : Alert) (action text : string)
  | ActTupleOther   (* a tuple of any other length *)
  | ActOther.       (* any other value *)

(** What [take_note] may return. *)
Inductive NoteResult : Type :=
  | NoteNone
  | NoteAlert (alert : Alert)
  | NoteTuple2 (alert : Alert) (text : string)
  | NoteOther.      (* anything else, tuples of other lengths included *)

(** What [status_change] may return: a falsy value, a bare alert (which
    does not unpack), or a 3-tuple.  Truthy values of other shapes would
    be bound to [alert] as they are and are not part of the model. *)
Inductive StatusResult : Type :=
  | StatusFalsy
  | StatusAlert (alert : Alert)
  | StatusTuple3 (alert : Alert) (status text : string).

(** ** Events *)

Inductive Shape : Type :=
  | Canonical   (* hook(..., config=wanted_config) *)
  | Reduced.    (* hook(...) without config *)

Inductive Hook : Type :=
  | PreReceive | PostReceive | TakeAction | TakeNote | StatusChange | Delete.

Inductive Event : Type :=
  | EvRouting (alert : Alert)
  | EvHook (plugin : string) (hook : Hook) (shape : Shape)
  | EvLog (msg : string)
  | EvIsDuplicate (alert : Alert)
  | EvDeduplicate (alert duplicate_of : Alert)
  | EvIsCorrelated (alert : Alert)
  | EvUpdate (alert correlate_with : Alert)
  | EvCreate (alert : Alert)
  | EvUpdateTags (alert : Alert) (tgs : list string)
  | EvUpdateAttributes (alert : Alert) (attrs : list (string * string))
  | EvDelete (alert : Alert).

Definition is_hook_event (ev : Event) : bool :=
  match ev with EvHook _ _ _ => true | _ => false end.

Definition is_resync_event (ev : Event) : bool :=
  match ev with
  | EvUpdateTags _ _ | EvUpdateAttributes _ _ => true
  | _ => false
  end.

Definition is_lifecycle_event (ev : Event) : bool :=
  match ev with
  | EvIsDuplicate _ | EvDeduplicate _ _ | EvIsCorrelated _
  | EvUpdate _ _ | EvCreate _ => true
  | _ => false
  end.

Definition is_create_or_update (ev : Event) : bool :=
  match ev with
  | EvUpdate _ _ | EvCreate _ => true
  | _ => false
  end.

Definition is_log_event (ev : Event) : bool :=
  match ev with EvLog _ => true | _ => false end.

(** Hook invocations of a trace, as (plugin name, shape) in order. *)
Fixpoint hook_calls (t : list Event) : list (string * Shape) :=
  match t with
  | [] => []
  | EvHook p _ s :: t' => (p, s) :: hook_calls t'
  | _ :: t' => hook_calls t'
  end.

(** ** Results and the pipeline monad *)

Inductive outcome (A : Type) : Type :=
  | Ok (a : A)
  | Raise (e : Exc).
Arguments Ok {A} a.
Arguments Raise {A} e.

Section Pipelines.

Variable W : Type.

(** An external call: runs against the world and returns or raises. *)
Definition Ext (A : Type) : Type := W -> outcome A * W.

(** A pipeline computation additionally emits the events of the
    external calls it made, in order. *)
Definition M (A : Type) : Type := W -> outcome A * W * list Event.

Definition ret {A} (a : A) : M A := fun w => (Ok a, w, []).

Definition raise {A} (e : Exc) : M A := fun w => (Raise e, w, []).

(** The events [t] happened before the run [x]. *)
Definition prepend {A} (t : list Event) (x : outcome A * W * list Event)
    : outcome A * W * list Event :=
  match x with (r, w, t') => (r, w, t ++ t') end.

Definition bind {A B} (m : M A) (f : A -> M B) : M B :=
  fun w =>
    match m w with
    | (Ok a, w1, t1) => prepend t1 (f a w1)
    | (Raise e, w1, t1) => (Raise e, w1, t1)
    end.

(** [try: body except ... as e: handler e].  An exception raised by the
    handler itself is not handled again. *)
Definition try_except {A} (body : M A) (handler : Exc -> M A) : M A :=
  fun w =>
    match body w with
    | (Ok a, w1, t1) => (Ok a, w1, t1)
    | (Raise e, w1, t1) => prepend t1 (handler e w1)
    end.

Definition call {A} (ev : Event) (f : Ext A) : M A :=
  fun w => match f w with (r, w1) => (r, w1, [ev]) end.

(** [logging.error(msg)] *)
Definition logging_error (msg : string) : M unit :=
  fun w => (Ok tt, w, [EvLog msg]).

End Pipelines.

Arguments ret {W A} a.
Arguments raise {W A} e.
Arguments prepend {W A} t x.
Arguments bind {W A B} m f.
Arguments try_except {W A} body handler.
Arguments call {W A} ev f.
Arguments logging_error {W} msg.

Declare Scope pipeline_scope.
Delimit Scope pipeline_scope with pipeline.
Notation "x <- m ;; k" := (bind m (fun x => k))
  (at level 61, m at next level, right associativity) : pipeline_scope.
Notation "' pat <- m ;; k" := (bind m (fun x => match x with pat => k end))
  (at level 61, pat pattern, m at next level, right associativity) : pipeline_scope.
Notation "m ;; k" := (bind m (fun _ => k))
  (at level 61, right associativity) : pipeline_scope.
Local Open Scope pipeline_scope.

(** ** Collaborators *)

Section Core.

Variable W : Type.

(** A plugin: its [name] and its hooks.  The last argument of a hook is
    the [config] keyword: [Some c] for the canonical call shape, [None]
    when the hook is called without it.  A hook a plugin does not
    implement raises, as PluginBase does. *)
Record Plugin : Type := mkPlugin {
  name : string;
  pre_receive : Alert -> option Config -> Ext W (option Alert);
  post_receive : Alert -> option Config -> Ext W (option Alert);
  take_action : Alert -> string -> string -> option Z -> option Config -> Ext W ActionResult;
  take_note : Alert -> string -> option Config -> Ext W NoteResult;
  status_change : Alert -> string -> string -> option Config -> Ext W StatusResult;
  delete : Alert -> option Config -> Ext W bool
}.

(** The operations of the alert model the pipelines call; the receiver
    is the first argument. *)
Record AlertModel : Type := mkAlertModel {
  is_duplicate : Alert -> Ext W (option Alert);
  deduplicate : Alert -> Alert -> Ext W Alert;
  is_correlated : Alert -> Ext W (option Alert);
  update : Alert -> Alert -> Ext W Alert;
  create : Alert -> Ext W Alert;
  update_tags : Alert -> list string -> Ext W unit;
  update_attributes : Alert -> list (string * string) -> Ext W (list (string * string));
  alert_delete : Alert -> Ext W bool
}.

(** [plugins.routing] *)
Variable routing : Alert -> Ext W (list Plugin * Config).

(** The alert model. *)
Variable db : AlertModel.

(** [current_app.config['PLUGINS_RAISE_ON_ERROR']] *)
Variable PLUGINS_RAISE_ON_ERROR : bool.

(** The message every wrapped plugin fault carries. *)
Definition plugin_error_message (stage : string) (plugin : Plugin) (e : Exc) : string :=
  "Error while running " ++ stage ++ " plugin '" ++ name plugin ++ "': " ++ str e.

(** ** process_alert *)

(** The first loop of [process_alert]; returns the running alert and
    [skip_plugins]. *)
Fixpoint pre_receive_loop (wanted_config : Config) (wanted_plugins : list Plugin)
    (alert : Alert) : M W (Alert * bool) :=
  match wanted_plugins with
  | [] => ret (alert, false)
  | plugin :: rest =>
      if is_suppressed alert then ret (alert, true)
      else
        alert' <- try_except
            (call (EvHook (name plugin) PreReceive Canonical)
                  (pre_receive plugin alert (Some wanted_config)))
            (fun e =>
               if isinstance e [TypeError] then
                 call (EvHook (name plugin) PreReceive Reduced)
                      (pre_receive plugin alert None)
               else if isinstance e [RejectException; HeartbeatReceived; BlackoutPeriod;
                                     RateLimit; ForwardingLoop; AlertaException] then
                 raise e
               else if PLUGINS_RAISE_ON_ERROR then
                 raise (mkExc RuntimeError (plugin_error_message "pre-receive" plugin e))
               else
                 logging_error (plugin_error_message "pre-receive" plugin e) ;;
                 ret (Some alert)) ;;
        match alert' with
        | None =>
            raise (mkExc SyntaxError
                     ("Plugin '" ++ name plugin ++
                      "' pre-receive hook did not return modified alert"))
        | Some alert => pre_receive_loop wanted_config rest alert
        end
  end.

(** The [try] block between the two loops of [process_alert]. *)
Definition resolve_lifecycle (alert : Alert) : M W Alert :=
  try_except
    (dup <- call (EvIsDuplicate alert) (is_duplicate db alert) ;;
     match dup with
     | Some m => call (EvDeduplicate alert m) (deduplicate db alert m)
     | None =>
         cor <- call (EvIsCorrelated alert) (is_correlated db alert) ;;
         match cor with
         | Some m => call (EvUpdate alert m) (update db alert m)
         | None => call (EvCreate alert) (create db alert)
         end
     end)
    (fun e => raise (mkExc ApiError (str e))).

(** The second loop of [process_alert]; returns the running alert and
    [alert_was_updated]. *)
Fixpoint post_receive_loop (skip_plugins : bool) (wanted_config : Config)
    (wanted_plugins : list Plugin) (alert : Alert) (alert_was_updated : bool)
    : M W (Alert * bool) :=
  match wanted_plugins with
  | [] => ret (alert, alert_was_updated)
  | plugin :: rest =>
      if skip_plugins then ret (alert, alert_was_updated)
      else
        updated <- try_except
            (call (EvHook (name plugin) PostReceive Canonical)
                  (post_receive plugin alert (Some wanted_config)))
            (fun e =>
               if isinstance e [TypeError] then
                 call (EvHook (name plugin) PostReceive Reduced)
                      (post_receive plugin alert None)
               else if isinstance e [AlertaException] then raise e
               else if PLUGINS_RAISE_ON_ERROR then
                 raise (mkExc ApiError (plugin_error_message "post-receive" plugin e))
               else
                 logging_error (plugin_error_message "post-receive" plugin e) ;;
                 ret None) ;;
        match updated with
        | Some alert => post_receive_loop skip_plugins wanted_config rest alert true
        | None => post_receive_loop skip_plugins wanted_config rest alert alert_was_updated
        end
  end.

Definition process_alert (alert : Alert) : M W Alert :=
  '(wanted_plugins, wanted_config) <- call (EvRouting alert) (routing alert) ;;
  '(alert, skip_plugins) <- pre_receive_loop wanted_config wanted_plugins alert ;;
  alert <- resolve_lifecycle alert ;;
  '(wanted_plugins, wanted_config) <- call (EvRouting alert) (routing alert) ;;
  '(alert, alert_was_updated) <-
     post_receive_loop skip_plugins wanted_config wanted_plugins alert false ;;
  if alert_was_updated then
    call (EvUpdateTags alert (tags alert)) (update_tags db alert (tags alert)) ;;
    attrs <- call (EvUpdateAttributes alert (attributes alert))
                  (update_attributes db alert (attributes alert)) ;;
    ret (set_attributes alert attrs)
  else ret alert.

(** ** process_action *)

(** The running state of the action loop: alert, action, text, timeout
    and [alert_was_updated]. *)
Definition ActionState : Type := (Alert * string * string * option Z * bool)%type.

(** Lines 117-124: a bare alert becomes the 4-tuple with the running
    fields; a 4-tuple replaces all four, a 3-tuple the first three; any
    tuple sets [alert_was_updated]. *)
Definition merge_action (updated : ActionResult) (st : ActionState) : ActionState :=
  match st with
  | (alert, action, text, timeout, alert_was_updated) =>
      match updated with
      | ActAlert a => (a, action, text, timeout, true)
      | ActTuple4 a action' text' timeout' => (a, action', text', timeout', true)
      | ActTuple3 a action' text' => (a, action', text', timeout, true)
      | ActTupleOther => (alert, action, text, timeout, true)
      | ActNone | ActOther => st
      end
  end.

Fixpoint action_loop (wanted_config : Config) (wanted_plugins : list Plugin)
    (st : ActionState) : M W ActionState :=
  match wanted_plugins with
  | [] => ret st
  | plugin :: rest =>
      match st with
      | (alert, action, text, timeout, _) =>
          if is_suppressed alert then ret st
          else
            updated <- try_except
                (call (EvHook (name plugin) TakeAction Canonical)
                      (take_action plugin alert action text timeout (Some wanted_config)))
                (fun e =>
                   if isinstance e [NotImplementedError] then ret ActNone
                   else if isinstance e [RejectException; ForwardingLoop; InvalidAction;
                                         AlertaException] then
                     raise e
                   else if PLUGINS_RAISE_ON_ERROR then
                     raise (mkExc ApiError (plugin_error_message "action" plugin e))
                   else
                     logging_error (plugin_error_message "action" plugin e) ;;
                     ret ActNone) ;;
            action_loop wanted_config rest (merge_action updated st)
      end
  end.

Definition process_action (alert : Alert) (action text : string) (timeout : option Z)
    : M W (Alert * string * string * option Z) :=
  '(wanted_plugins, wanted_config) <- call (EvRouting alert) (routing alert) ;;
  '(alert, action, text, timeout, alert_was_updated) <-
     action_loop wanted_config wanted_plugins (alert, action, text, timeout, false) ;;
  if alert_was_updated then
    call (EvUpdateTags alert (tags alert)) (update_tags db alert (tags alert)) ;;
    attrs <- call (EvUpdateAttributes alert (attributes alert))
                  (update_attributes db alert (attributes alert)) ;;
    ret (set_attributes alert attrs, action, text, timeout)
  else ret (alert, action, text, timeout).

(** ** process_note *)

Definition NoteState : Type := (Alert * string * bool)%type.

Definition merge_note (updated : NoteResult) (st : NoteState) : NoteState :=
  match st with
  | (alert, text, alert_was_updated) =>
      match updated with
      | NoteAlert a => (a, text, true)
      | NoteTuple2 a text' => (a, text', true)
      | NoteNone | NoteOther => st
      end
  end.

Fixpoint note_loop (wanted_config : Config) (wanted_plugins : list Plugin)
    (st : NoteState) : M W NoteState :=
  match wanted_plugins with
  | [] => ret st
  | plugin :: rest =>
      match st with
      | (alert, text, _) =>
          updated <- try_except
              (call (EvHook (name plugin) TakeNote Canonical)
                    (take_note plugin alert text (Some wanted_config)))
              (fun e =>
                 if isinstance e [NotImplementedError] then ret NoteNone
                 else if isinstance e [RejectException; ForwardingLoop; AlertaException] then
                   raise e
                 else if PLUGINS_RAISE_ON_ERROR then
                   raise (mkExc ApiError (plugin_error_message "note" plugin e))
                 else
                   logging_error (plugin_error_message "note" plugin e) ;;
                   ret NoteNone) ;;
          note_loop wanted_config rest (merge_note updated st)
      end
  end.

Definition process_note (alert : Alert) (text : string) : M W (Alert * string) :=
  '(wanted_plugins, wanted_config) <- call (EvRouting alert) (routing alert) ;;
  '(alert, text, alert_was_updated) <-
     note_loop wanted_config wanted_plugins (alert, text, false) ;;
  if alert_was_updated then
    call (EvUpdateTags alert (tags alert)) (update_tags db alert (tags alert)) ;;
    call (EvUpdateAttributes alert (attributes alert))
         (update_attributes db alert (attributes alert)) ;;
    ret (alert, text)
  else ret (alert, text).

(** ** process_status *)

Definition StatusState : Type := (Alert * string * string * bool)%type.

(** Lines 185-190: a truthy result sets the flag; a 3-tuple is unpacked,
    anything that does not unpack replaces the alert alone. *)
Definition merge_status (updated : StatusResult) (st : StatusState) : StatusState :=
  match st with
  | (alert, status, text, alert_was_updated) =>
      match updated with
      | StatusFalsy => st
      | StatusTuple3 a status' text' => (a, status', text', true)
      | StatusAlert a => (a, status, text, true)
      end
  end.

Fixpoint status_loop (wanted_config : Config) (wanted_plugins : list Plugin)
    (st : StatusState) : M W StatusState :=
  match wanted_plugins with
  | [] => ret st
  | plugin :: rest =>
      match st with
      | (alert, status, text, _) =>
          if is_suppressed alert then ret st
          else
            updated <- try_except
                (call (EvHook (name plugin) StatusChange Canonical)
                      (status_change plugin alert status text (Some wanted_config)))
                (fun e =>
                   if isinstance e [TypeError] then
                     call (EvHook (name plugin) StatusChange Reduced)
                          (status_change plugin alert status text None)
                   else if isinstance e [RejectException; AlertaException] then raise e
                   else if PLUGINS_RAISE_ON_ERROR then
                     raise (mkExc ApiError (plugin_error_message "status" plugin e))
                   else
                     logging_error (plugin_error_message "status" plugin e) ;;
                     ret StatusFalsy) ;;
            status_loop wanted_config rest (merge_status updated st)
      end
  end.

Definition process_status (alert : Alert) (status text : string)
    : M W (Alert * string * string) :=
  '(wanted_plugins, wanted_config) <- call (EvRouting alert) (routing alert) ;;
  '(alert, status, text, alert_was_updated) <-
     status_loop wanted_config wanted_plugins (alert, status, text, false) ;;
  if alert_was_updated then
    call (EvUpdateTags alert (tags alert)) (update_tags db alert (tags alert)) ;;
    attrs <- call (EvUpdateAttributes alert (attributes alert))
                  (update_attributes db alert (attributes alert)) ;;
    ret (set_attributes alert attrs, status, text)
  else ret (alert, status, text).

(** ** process_delete *)

(** The loop of [process_delete] over the running verdict.  Python's
    [delete and plugin.delete(...)] evaluates the hook call only when
    the running verdict is true. *)
Fixpoint delete_loop (wanted_config : Config) (wanted_plugins : list Plugin)
    (alert : Alert) (verdict : bool) : M W bool :=
  match wanted_plugins with
  | [] => ret verdict
  | plugin :: rest =>
      verdict' <- try_except
          (if verdict then
             call (EvHook (name plugin) Delete Canonical)
                  (delete plugin alert (Some wanted_config))
           else ret false)
          (fun e =>
             if isinstance e [NotImplementedError] then ret verdict
             else if isinstance e [RejectException; AlertaException] then raise e
             else if PLUGINS_RAISE_ON_ERROR then
               raise (mkExc ApiError (plugin_error_message "delete" plugin e))
             else
               logging_error (plugin_error_message "delete" plugin e) ;;
               ret verdict) ;;
      delete_loop wanted_config rest alert verdict'
  end.

Definition process_delete (alert : Alert) : M W bool :=
  '(wanted_plugins, wanted_config) <- call (EvRouting alert) (routing alert) ;;
  verdict <- delete_loop wanted_config wanted_plugins alert true ;;
  if verdict then call (EvDelete alert) (alert_delete db alert) else ret false.

End Core.

(** ** Notions used to state the properties *)

Section Notions.

Variable W : Type.

(** Result and trace of a run. *)
Definition result_of {A} (x : outcome A * W * list Event) : outcome A := fst (fst x).
Definition trace_of {A} (x : outcome A * W * list Event) : list Event := snd x.

(** The two-shape invocation of lines 40-43 (and 74-77, 174-177) taken
    alone: the canonical call, and the call without [config] when the
    canonical one raised a [TypeError]. *)
Definition invoke_compat {A} (plugin_name : string) (hook : Hook)
    (h : option Config -> Ext W A) (wanted_config : Config) : M W A :=
  try_except
    (call (EvHook plugin_name hook Canonical) (h (Some wanted_config)))
    (fun e =>
       if isinstance e [TypeError] then call (EvHook plugin_name hook Reduced) (h None)
       else raise e).

(** The [try] statement of the three loops with a legacy retry, by its
    shape: [except TypeError] first, then the remaining clauses [K]. *)
Definition with_retry {A} (n : string) (hook : Hook) (h : option Config -> Ext W A)
    (wanted_config : Config) (K : Exc -> M W A) : M W A :=
  try_except
    (call (EvHook n hook Canonical) (h (Some wanted_config)))
    (fun e => if isinstance e [TypeError] then call (EvHook n hook Reduced) (h None)
              else K e).

Definition raised_TypeError {A} (r : outcome A * W) : bool :=
  match fst r with
  | Raise e => isinstance e [TypeError]
  | Ok _ => false
  end.

(** What the handler of lines 64-65 makes of a result. *)
Definition wrap_api_error {A} (r : outcome A) : outcome A :=
  match r with
  | Ok a => Ok a
  | Raise e => Raise (mkExc ApiError (str e))
  end.

(** The verdicts of the delete hooks that a run from world [w] calls,
    when each of them returns one: the hooks are called in chain order
    until one returns false.  [None] when a hook that is called raises. *)
Fixpoint invoked_verdicts (cfg : Config) (alert : Alert) (ps : list (Plugin W)) (w : W)
    : option (list bool * W) :=
  match ps with
  | [] => Some ([], w)
  | p :: rest =>
      match delete p alert (Some cfg) w with
      | (Ok true, w1) =>
          match invoked_verdicts cfg alert rest w1 with
          | Some (vs, w') => Some (true :: vs, w')
          | None => None
          end
      | (Ok false, w1) => Some ([false], w1)
      | (Raise _, w1) => None
      end
  end.

(** A recognized domain condition: an instance of one of the seven
    domain classes the pipelines name. *)
Definition is_control_signal (e : Exc) : bool :=
  isinstance e [RejectException; HeartbeatReceived; BlackoutPeriod; RateLimit;
                ForwardingLoop; InvalidAction; AlertaException].


(** The clauses after [except TypeError] in each loop, as the source has
    them; the unfolding lemmas below check them against the loops. *)
Definition pre_receive_clauses (raise_on_error : bool) (plugin : Plugin W) (alert : Alert)
    : Exc -> M W (option Alert) :=
  fun e =>
    if isinstance e [RejectException; HeartbeatReceived; BlackoutPeriod;
                     RateLimit; ForwardingLoop; AlertaException] then raise e
    else if raise_on_error then
      raise (mkExc RuntimeError (plugin_error_message "pre-receive" plugin e))
    else
      logging_error (plugin_error_message "pre-receive" plugin e) ;;
      ret (Some alert).

Definition post_receive_clauses (raise_on_error : bool) (plugin : Plugin W)
    : Exc -> M W (option Alert) :=
  fun e =>
    if isinstance e [AlertaException] then raise e
    else if raise_on_error then
      raise (mkExc ApiError (plugin_error_message "post-receive" plugin e))
    else
      logging_error (plugin_error_message "post-receive" plugin e) ;;
      ret None.

Definition status_clauses (raise_on_error : bool) (plugin : Plugin W)
    : Exc -> M W StatusResult :=
  fun e =>
    if isinstance e [RejectException; AlertaException] then raise e
    else if raise_on_error then
      raise (mkExc ApiError (plugin_error_message "status" plugin e))
    else
      logging_error (plugin_error_message "status" plugin e) ;;
      ret StatusFalsy.

(** The error a pre-receive hook that returns nothing is answered with. *)
Definition no_alert_returned (plugin : Plugin W) : Exc :=
  mkExc SyntaxError
    ("Plugin '" ++ name plugin ++ "' pre-receive hook did not return modified alert").


(** The [except] clauses of the loops without a retry. *)
Definition action_clauses (raise_on_error : bool) (plugin : Plugin W)
    : Exc -> M W ActionResult :=
  fun e =>
    if isinstance e [NotImplementedError] then ret ActNone
    else if isinstance e [RejectException; ForwardingLoop; InvalidAction;
                          AlertaException] then raise e
    else if raise_on_error then
      raise (mkExc ApiError (plugin_error_message "action" plugin e))
    else
      logging_error (plugin_error_message "action" plugin e) ;;
      ret ActNone.

Definition note_clauses (raise_on_error : bool) (plugin : Plugin W)
    : Exc -> M W NoteResult :=
  fun e =>
    if isinstance e [NotImplementedError] then ret NoteNone
    else if isinstance e [RejectException; ForwardingLoop; AlertaException] then raise e
    else if raise_on_error then
      raise (mkExc ApiError (plugin_error_message "note" plugin e))
    else
      logging_error (plugin_error_message "note" plugin e) ;;
      ret NoteNone.

Definition delete_clauses (raise_on_error : bool) (plugin : Plugin W) (verdict : bool)
    : Exc -> M W bool :=
  fun e =>
    if isinstance e [NotImplementedError] then ret verdict
    else if isinstance e [RejectException; AlertaException] then raise e
    else if raise_on_error then
      raise (mkExc ApiError (plugin_error_message "delete" plugin e))
    else
      logging_error (plugin_error_message "delete" plugin e) ;;
      ret verdict.

End Notions.

Arguments is_control_signal e /.

(** ** Concrete collaborators

    A world without state, a few plugins and an alert model, on which
    the pipelines can be run. *)

Definition returns {A} (a : A) : Ext unit A := fun w => (Ok a, w).

Definition raises {A} (c : ExcClass) (msg : string) : Ext unit A :=
  fun w => (Raise (mkExc c msg), w).

Definition demo_config : Config := [("env", "test")].

(** A plugin with the defaults of PluginBase: [pre_receive] returns the
    alert, [post_receive] and [status_change] return nothing, the
    optional hooks raise [NotImplementedError]. *)
Definition base_plugin (n : string) : Plugin unit :=
  {| name := n;
     pre_receive := fun a _ => returns (Some a);
     post_receive := fun _ _ => returns None;
     take_action := fun _ _ _ _ _ => raises NotImplementedError "take_action";
     take_note := fun _ _ _ => raises NotImplementedError "take_note";
     status_change := fun _ _ _ _ => returns StatusFalsy;
     delete := fun _ _ => raises NotImplementedError "delete" |}.

Definition add_tag (t : string) (a : Alert) : Alert :=
  {| alert_id := alert_id a; is_suppressed := is_suppressed a;
     tags := t :: tags a; attributes := attributes a |}.

(** Tags the alert in every hook that returns one. *)
Definition tagger (n : string) : Plugin unit :=
  {| name := n;
     pre_receive := fun a _ => returns (Some (add_tag n a));
     post_receive := fun a _ => returns (Some (add_tag n a));
     take_action := fun a action text _ _ => returns (ActTuple3 (add_tag n a) action text);
     take_note := fun a text _ => returns (NoteTuple2 (add_tag n a) text);
     status_change := fun a status text _ => returns (StatusTuple3 (add_tag n a) status text);
     delete := fun _ _ => returns true |}.

(** Returns nothing from [take_action], [take_note] and the receive and
    status hooks; denies deletion. *)
Definition silent (n : string) : Plugin unit :=
  {| name := n;
     pre_receive := fun _ _ => returns None;
     post_receive := fun _ _ => returns None;
     take_action := fun _ _ _ _ _ => returns ActNone;
     take_note := fun _ _ _ => returns NoteNone;
     status_change := fun _ _ _ _ => returns StatusFalsy;
     delete := fun _ _ => returns false |}.

(** Returns the empty tuple from [take_action]; otherwise the defaults
    of [base_plugin]. *)
Definition empty_handed (n : string) : Plugin unit :=
  {| name := n;
     pre_receive := fun a _ => returns (Some a);
     post_receive := fun _ _ => returns None;
     take_action := fun _ _ _ _ _ => returns ActTupleOther;
     take_note := fun _ _ _ => raises NotImplementedError "take_note";
     status_change := fun _ _ _ _ => returns StatusFalsy;
     delete := fun _ _ => raises NotImplementedError "delete" |}.

(** A plugin written before [config] was passed: every hook raises
    [TypeError] when called with it.  Called without it, the receive
    and status hooks run [body]; [take_action] would return the alert. *)
Definition legacy (n : string) (body : Alert -> Ext unit (option Alert)) : Plugin unit :=
  let arity {A} : Ext unit A :=
    raises TypeError "got an unexpected keyword argument 'config'" in
  {| name := n;
     pre_receive := fun a c => match c with Some _ => arity | None => body a end;
     post_receive := fun a c => match c with Some _ => arity | None => body a end;
     take_action := fun a _ _ _ c =>
       match c with Some _ => arity | None => returns (ActAlert a) end;
     take_note := fun a _ c =>
       match c with Some _ => arity | None => returns (NoteAlert a) end;
     status_change := fun a _ _ c =>
       match c with
       | Some _ => arity
       | None => fun w => match body a w with
                          | (Ok (Some a'), w') => (Ok (StatusAlert a'), w')
                          | (Ok None, w') => (Ok StatusFalsy, w')
                          | (Raise e, w') => (Raise e, w')
                          end
       end;
     delete := fun _ c => match c with Some _ => arity | None => returns true end |}.

(** A plugin whose hooks all raise the given exception. *)
Definition failing (n : string) (c : ExcClass) (msg : string) : Plugin unit :=
  {| name := n;
     pre_receive := fun _ _ => raises c msg;
     post_receive := fun _ _ => raises c msg;
     take_action := fun _ _ _ _ _ => raises c msg;
     take_note := fun _ _ _ => raises c msg;
     status_change := fun _ _ _ _ => raises c msg;
     delete := fun _ _ => raises c msg |}.

(** An alert model over the stateless world: nothing is a duplicate or
    correlated unless [known] says so, [create] assigns the id "1",
    and [update_attributes] reports the stored attributes with a
    marker. *)
Definition demo_db (known : option Alert) : AlertModel unit :=
  {| is_duplicate := fun _ => returns known;
     deduplicate := fun _ m => returns m;
     is_correlated := fun _ => returns None;
     update := fun _ m => returns m;
     create := fun a => returns {| alert_id := "1"; is_suppressed := is_suppressed a;
                                   tags := tags a; attributes := attributes a |};
     update_tags := fun _ _ => returns tt;
     update_attributes := fun _ attrs => returns (("stored", "yes") :: attrs);
     alert_delete := fun _ => returns true |}.

(** The default router: every alert gets the same chain. *)
Definition route_all (ps : list (Plugin unit)) : Alert -> Ext unit (list (Plugin unit) * Config) :=
  fun _ => returns (ps, demo_config).

(** A router with a rule on the alert's identity: alerts not yet stored
    get no plugins, stored ones get [ps]. *)
Definition route_stored (ps : list (Plugin unit)) : Alert -> Ext unit (list (Plugin unit) * Config) :=
  fun a => returns (if String.eqb (alert_id a) EmptyString then [] else ps, demo_config).

Definition new_alert : Alert :=
  {| alert_id := EmptyString; is_suppressed := false;
     tags := ["prod"]; attributes := [("region", "eu")] |}.

Definition suppressed_alert : Alert :=
  {| alert_id := EmptyString; is_suppressed := true;
     tags := ["prod"]; attributes := [("region", "eu")] |}.

Definition stored_alert : Alert :=
  {| alert_id := "7"; is_suppressed := false;
     tags := ["prod"]; attributes := [("region", "eu")] |}.

(** Marks the alert suppressed in the hooks that return one, as a
    blackout plugin does; otherwise the defaults of [base_plugin]. *)
Definition suppress (a : Alert) : Alert :=
  {| alert_id := alert_id a; is_suppressed := true;
     tags := tags a; attributes := attributes a |}.

Definition suppressing (n : string) : Plugin unit :=
  {| name := n;
     pre_receive := fun a _ => returns (Some (suppress a));
     post_receive := fun a _ => returns (Some (add_tag n a));
     take_action := fun a _ _ _ _ => returns (ActAlert (suppress a));
     take_note := fun _ _ _ => raises NotImplementedError "take_note";
     status_change := fun a _ _ _ => returns (StatusAlert (suppress a));
     delete := fun _ _ => raises NotImplementedError "delete" |}.

(** An alert model whose update_tags fails. *)
Definition failing_tags_db (c : ExcClass) (msg : string) : AlertModel unit :=
  {| is_duplicate := fun _ => returns None;
     deduplicate := fun _ m => returns m;
     is_correlated := fun _ => returns None;
     update := fun _ m => returns m;
     create := fun a => returns a;
     update_tags := fun _ _ => raises c msg;
     update_attributes := fun _ attrs => returns attrs;
     alert_delete := fun _ => returns true |}.

(** An alert model whose create fails. *)
Definition failing_create_db (c : ExcClass) (msg : string) : AlertModel unit :=
  {| is_duplicate := fun _ => returns None;
     deduplicate := fun _ m => returns m;
     is_correlated := fun _ => returns None;
     update := fun _ m => returns m;
     create := fun _ => raises c msg;
     update_tags := fun _ _ => returns tt;
     update_attributes := fun _ attrs => returns attrs;
     alert_delete := fun _ => returns true |}.

(** ** Which events belong to which pipeline *)

Definition hook_eqb (h h' : Hook) : bool :=
  match h, h' with
  | PreReceive, PreReceive | PostReceive, PostReceive | TakeAction, TakeAction
  | TakeNote, TakeNote | StatusChange, StatusChange | Delete, Delete => true
  | _, _ => false
  end.

Definition shape_eqb (s s' : Shape) : bool :=
  match s, s' with
  | Canonical, Canonical | Reduced, Reduced => true
  | _, _ => false
  end.

(** The events a pipeline with hook [h] may emit when it ends by a
    resync: the routing lookup, hook calls of kind [h] (in the reduced
    shape only where [retry] says so), log entries and the two resync
    calls. *)
Definition resyncing_pipeline_event (h : Hook) (retry : bool) (ev : Event) : bool :=
  match ev with
  | EvRouting _ | EvLog _ | EvUpdateTags _ _ | EvUpdateAttributes _ _ => true
  | EvHook _ h' s => (hook_eqb h h' && (retry || shape_eqb s Canonical))%bool
  | _ => false
  end.

(** The events of the delete pipeline. *)
Definition delete_pipeline_event (ev : Event) : bool :=
  match ev with
  | EvRouting _ | EvLog _ | EvDelete _ => true
  | EvHook _ Delete Canonical => true
  | _ => false
  end.

(** The events of the receive pipeline. *)
Definition receive_pipeline_event (ev : Event) : bool :=
  match ev with
  | EvDelete _ => false
  | EvHook _ PreReceive _ | EvHook _ PostReceive _ => true
  | EvHook _ _ _ => false
  | _ => true
  end.

Definition is_delete_event (ev : Event) : bool :=
  match ev with EvDelete _ => true | _ => false end.

(** ** What a loop without retry lets out *)

Definition at_most_one_log (log : list Event) : Prop :=
  log = [] \/ exists msg, log = [EvLog msg].

(** The exceptions the [except] clauses of the action, note and delete
    loops let out for a plugin: a domain control signal as it is, or,
    under the strict policy, the ApiError that names stage and plugin. *)
Definition escapes {W : Type} (raise_on_error : bool) (stage : string)
    (plugin : Plugin W) (e : Exc) : Prop :=
  is_control_signal e = true
  \/ (raise_on_error = true
      /\ exists e0, e = mkExc ApiError (plugin_error_message stage plugin e0)).

(** ** assign_customer *)


(** The attributes of flask's request global [g] the function reads:
    [customers], which may be unset ([g.get('customers', [])]), and
    [scopes]. *)
Record RequestGlobals : Type := mkGlobals {
  g_customers : option (list string);
  g_scopes : list string
}.

(** What [assign_customer] returns, or the [ApiError(message, code)] it
    raises. *)
Inductive CustomerResult : Type :=
  | Customer (c : option string)
  | Refused (message : string) (code : Z).

(** [x in l] on strings. *)
Definition contains (x : string) (l : list string) : bool :=
  existsb (String.eqb x) l.

Section AssignCustomer.

(** [Scope.admin]; alerta.models.enums is not among the sources, so the
    scope is a parameter.  A scope is its string value. *)
Variable Scope_admin : string.

(** [permission] is given explicitly; the source's default for it is
    [Scope.admin_alerts]. *)
Definition assign_customer (g : RequestGlobals) (wanted : option string)
    (permission : string) : CustomerResult :=
  let customers := match g_customers g with Some cs => cs | None => [] end in
  let unwanted :=
    match customers with
    | [] => Customer None
    | c :: _ =>
        if Nat.ltb 1 (List.length customers) then
          Refused "must define customer as more than one possibility" 400
        else Customer (Some c)
    end in
  match wanted with
  | None => unwanted
  | Some w =>
      if String.eqb w EmptyString then unwanted
      else if (contains Scope_admin (g_scopes g) || contains permission (g_scopes g))%bool then
        Customer (Some w)
      else if negb (contains w customers) then
        Refused ("not allowed to set customer to '" ++ w ++ "'") 400
      else Customer (Some w)
  end.

(** [if wanted:] *)
Definition is_wanted (wanted : option string) : bool :=
  match wanted with
  | Some w => negb (String.eqb w EmptyString)
  | None => false
  end.

(** The customers of the request. *)
Definition customers_of (g : RequestGlobals) : list string :=
  match g_customers g with Some cs => cs | None => [] end.

(** The caller holds the admin scope or the given permission. *)
Definition privileged (g : RequestGlobals) (permission : string) : bool :=
  (contains Scope_admin (g_scopes g) || contains permission (g_scopes g))%bool.

End AssignCustomer.

(** Two requests: a caller with two customers, and one with a single
    customer; neither holds an admin scope. *)
Definition two_customers : RequestGlobals :=
  {| g_customers := Some ["acme"; "globex"]; g_scopes := ["read"; "write:alerts"] |}.

Definition one_customer : RequestGlobals :=
  {| g_customers := Some ["acme"]; g_scopes := ["read"] |}.

(** * Properties *)

(** ** Exception classes *)

(** Facts about classes are settled by going through the classes. *)
Ltac by_class e :=
  destruct e as [c msg]; destruct c; cbn; intros;
  repeat match goal with |- _ /\ _ => split end;
  solve [reflexivity | discriminate | assumption].

(** Each of the seven domain classes is a control signal, and none is
    an instance of another. *)
Lemma domain_classes_are_control_signals :
  forall c, In c [RejectException; HeartbeatReceived; BlackoutPeriod; RateLimit;
                  ForwardingLoop; InvalidAction; AlertaException] ->
  forall msg, is_control_signal (mkExc c msg) = true
              /\ (forall d, In d [RejectException; HeartbeatReceived; BlackoutPeriod;
                                  RateLimit; ForwardingLoop; InvalidAction; AlertaException] ->
                             isinstance (mkExc c msg) [d] = true -> d = c).
Proof.
  intros c Hc msg. simpl in Hc.
  repeat (destruct Hc as [<- | Hc];
          [split; [reflexivity|];
           intros d Hd; simpl in Hd;
           repeat (destruct Hd as [<- | Hd]; [cbn; intros; solve [reflexivity | discriminate]|]);
           contradiction |]).
  contradiction.
Qed.

(** What every clause of the pipelines names is a control signal. *)
Lemma named_is_control_signal e :
  (isinstance e [RejectException; HeartbeatReceived; BlackoutPeriod;
                 RateLimit; ForwardingLoop; AlertaException] = true ->
   is_control_signal e = true)
  /\ (isinstance e [AlertaException] = true -> is_control_signal e = true)
  /\ (isinstance e [RejectException; ForwardingLoop; InvalidAction; AlertaException] = true ->
      is_control_signal e = true)
  /\ (isinstance e [RejectException; ForwardingLoop; AlertaException] = true ->
      is_control_signal e = true)
  /\ (isinstance e [RejectException; AlertaException] = true -> is_control_signal e = true).
Proof. by_class e. Qed.

(** What is no control signal is named by no clause. *)
Lemma outside_domain e :
  is_control_signal e = false ->
  isinstance e [RejectException; HeartbeatReceived; BlackoutPeriod;
                RateLimit; ForwardingLoop; AlertaException] = false
  /\ isinstance e [AlertaException] = false
  /\ isinstance e [RejectException; ForwardingLoop; InvalidAction; AlertaException] = false
  /\ isinstance e [RejectException; ForwardingLoop; AlertaException] = false
  /\ isinstance e [RejectException; AlertaException] = false.
Proof. by_class e. Qed.

Lemma control_not_TypeError e :
  is_control_signal e = true -> isinstance e [TypeError] = false.
Proof. by_class e. Qed.

Lemma control_not_NotImplementedError e :
  is_control_signal e = true -> isinstance e [NotImplementedError] = false.
Proof. by_class e. Qed.

Lemma NotImplementedError_is_generic e :
  isinstance e [NotImplementedError] = true ->
  isinstance e [TypeError] = false /\ is_control_signal e = false.
Proof. by_class e. Qed.

(** ** The pipeline monad *)

Section Laws.

Context {W : Type}.

Lemma prepend_nil A (x : outcome A * W * list Event) : prepend [] x = x.
Proof. destruct x as [[r w] t]. reflexivity. Qed.

Lemma prepend_prepend A (t1 t2 : list Event) (x : outcome A * W * list Event) :
  prepend t1 (prepend t2 x) = prepend (t1 ++ t2) x.
Proof. destruct x as [[r w] t]. simpl. now rewrite app_assoc. Qed.

Lemma bind_ok A B (m : M W A) (f : A -> M W B) w a w1 t1 :
  m w = (Ok a, w1, t1) -> bind m f w = prepend t1 (f a w1).
Proof. intros H. unfold bind. now rewrite H. Qed.

Lemma bind_raise A B (m : M W A) (f : A -> M W B) w e w1 t1 :
  m w = (Raise e, w1, t1) -> bind m f w = (Raise e, w1, t1).
Proof. intros H. unfold bind. now rewrite H. Qed.

Lemma bind_assoc A B C (m : M W A) (f : A -> M W B) (g : B -> M W C) w :
  bind (bind m f) g w = bind m (fun a => bind (f a) g) w.
Proof.
  unfold bind. destruct (m w) as [[[a|e] w1] t1]; simpl; [|reflexivity].
  destruct (f a w1) as [[[b|e] w2] t2]; simpl; [|reflexivity].
  now rewrite prepend_prepend.
Qed.

Lemma call_run A ev (f : Ext W A) w r w1 :
  f w = (r, w1) -> call ev f w = (r, w1, [ev]).
Proof. intros H. unfold call. now rewrite H. Qed.

Lemma try_call_ok A ev (f : Ext W A) (handler : Exc -> M W A) w a w1 :
  f w = (Ok a, w1) -> try_except (call ev f) handler w = (Ok a, w1, [ev]).
Proof. intros H. unfold try_except, call. now rewrite H. Qed.

Lemma try_call_raise A ev (f : Ext W A) (handler : Exc -> M W A) w e w1 :
  f w = (Raise e, w1) ->
  try_except (call ev f) handler w = prepend [ev] (handler e w1).
Proof. intros H. unfold try_except, call. now rewrite H. Qed.

Lemma with_retry_ok A n hook (h : option Config -> Ext W A) cfg K w a w1 th :
  invoke_compat n hook h cfg w = (Ok a, w1, th) ->
  with_retry n hook h cfg K w = (Ok a, w1, th).
Proof.
  unfold invoke_compat, with_retry, try_except, call.
  destruct (h (Some cfg) w) as [[v|e] w0]; [auto|].
  destruct (isinstance e [TypeError]); [auto|].
  simpl. discriminate.
Qed.


Lemma with_retry_fault A n hook (h : option Config -> Ext W A) cfg K w e w1 :
  h (Some cfg) w = (Raise e, w1) ->
  isinstance e [TypeError] = false ->
  with_retry n hook h cfg K w = prepend [EvHook n hook Canonical] (K e w1).
Proof.
  intros H HT. unfold with_retry, try_except, call. now rewrite H, HT.
Qed.

Lemma with_retry_calls A n hook (h : option Config -> Ext W A) cfg K w :
  (forall e w', hook_calls (trace_of (K e w')) = []) ->
  hook_calls (trace_of (with_retry n hook h cfg K w))
  = (n, Canonical) :: (if raised_TypeError (h (Some cfg) w) then [(n, Reduced)] else []).
Proof.
  intros HK. unfold with_retry, try_except, call, raised_TypeError.
  destruct (h (Some cfg) w) as [[v|e] w0]; [reflexivity|].
  cbn [fst]. destruct (isinstance e [TypeError]).
  - destruct (h None w0) as [r w1]. reflexivity.
  - specialize (HK e w0). destruct (K e w0) as [[r w1] t1].
    unfold trace_of in *. cbn in *. now rewrite HK.
Qed.

End Laws.

(** ** The loops with a legacy retry: pre-receive, post-receive, status *)

Section RetryLoops.

Context {W : Type}.
Variable raise_on_error : bool.
Variable cfg : Config.




(** *** pre-receive *)

Lemma pre_receive_loop_suppressed (plugin : Plugin W) rest alert w :
  is_suppressed alert = true ->
  pre_receive_loop raise_on_error cfg (plugin :: rest) alert w = (Ok (alert, true), w, []).
Proof. intros H. cbn [pre_receive_loop]. now rewrite H. Qed.

Lemma pre_receive_loop_cons (plugin : Plugin W) rest alert :
  is_suppressed alert = false ->
  pre_receive_loop raise_on_error cfg (plugin :: rest) alert
  = bind (with_retry (name plugin) PreReceive (pre_receive plugin alert) cfg
            (pre_receive_clauses raise_on_error plugin alert))
         (fun alert' => match alert' with
                        | None => raise (no_alert_returned plugin)
                        | Some a => pre_receive_loop raise_on_error cfg rest a
                        end).
Proof. intros H. cbn [pre_receive_loop]. now rewrite H. Qed.

Lemma pre_receive_returned (plugin : Plugin W) rest alert w o w1 th :
  is_suppressed alert = false ->
  invoke_compat (name plugin) PreReceive (pre_receive plugin alert) cfg w = (Ok o, w1, th) ->
  pre_receive_loop raise_on_error cfg (plugin :: rest) alert w
  = prepend th (match o with
                | None => (Raise (no_alert_returned plugin), w1, [])
                | Some a => pre_receive_loop raise_on_error cfg rest a w1
                end).
Proof.
  intros Hs Hi. rewrite pre_receive_loop_cons by assumption.
  erewrite bind_ok by (apply with_retry_ok; eassumption).
  now destruct o.
Qed.


Lemma pre_receive_fault (plugin : Plugin W) rest alert w e w1 :
  is_suppressed alert = false ->
  pre_receive plugin alert (Some cfg) w = (Raise e, w1) ->
  isinstance e [TypeError] = false ->
  isinstance e [RejectException; HeartbeatReceived; BlackoutPeriod;
                RateLimit; ForwardingLoop; AlertaException] = false ->
  pre_receive_loop raise_on_error cfg (plugin :: rest) alert w
  = if raise_on_error then
      (Raise (mkExc RuntimeError (plugin_error_message "pre-receive" plugin e)), w1,
       [EvHook (name plugin) PreReceive Canonical])
    else
      prepend [EvHook (name plugin) PreReceive Canonical;
               EvLog (plugin_error_message "pre-receive" plugin e)]
              (pre_receive_loop raise_on_error cfg rest alert w1).
Proof.
  intros Hs Hh HT Hc. rewrite pre_receive_loop_cons by assumption.
  unfold bind at 1. erewrite with_retry_fault by eassumption.
  unfold pre_receive_clauses. rewrite Hc.
  destruct raise_on_error; [reflexivity|].
  cbn -[plugin_error_message pre_receive_loop].
  now destruct (pre_receive_loop false cfg rest alert w1) as [[r w2] t2].
Qed.

(** *** post-receive *)

Lemma post_receive_loop_skipped ps alert u (w : W) :
  post_receive_loop raise_on_error true cfg ps alert u w = (Ok (alert, u), w, []).
Proof. destruct ps; reflexivity. Qed.

Lemma post_receive_loop_cons (plugin : Plugin W) rest alert u :
  post_receive_loop raise_on_error false cfg (plugin :: rest) alert u
  = bind (with_retry (name plugin) PostReceive (post_receive plugin alert) cfg
            (post_receive_clauses raise_on_error plugin))
         (fun updated => match updated with
                         | Some a => post_receive_loop raise_on_error false cfg rest a true
                         | None => post_receive_loop raise_on_error false cfg rest alert u
                         end).
Proof. reflexivity. Qed.

Lemma post_receive_returned (plugin : Plugin W) rest alert u w o w1 th :
  invoke_compat (name plugin) PostReceive (post_receive plugin alert) cfg w = (Ok o, w1, th) ->
  post_receive_loop raise_on_error false cfg (plugin :: rest) alert u w
  = prepend th (match o with
                | Some a => post_receive_loop raise_on_error false cfg rest a true w1
                | None => post_receive_loop raise_on_error false cfg rest alert u w1
                end).
Proof.
  intros Hi. rewrite post_receive_loop_cons.
  erewrite bind_ok by (apply with_retry_ok; eassumption).
  now destruct o.
Qed.


Lemma post_receive_fault (plugin : Plugin W) rest alert u w e w1 :
  post_receive plugin alert (Some cfg) w = (Raise e, w1) ->
  isinstance e [TypeError] = false ->
  isinstance e [AlertaException] = false ->
  post_receive_loop raise_on_error false cfg (plugin :: rest) alert u w
  = if raise_on_error then
      (Raise (mkExc ApiError (plugin_error_message "post-receive" plugin e)), w1,
       [EvHook (name plugin) PostReceive Canonical])
    else
      prepend [EvHook (name plugin) PostReceive Canonical;
               EvLog (plugin_error_message "post-receive" plugin e)]
              (post_receive_loop raise_on_error false cfg rest alert u w1).
Proof.
  intros Hh HT Hc. rewrite post_receive_loop_cons.
  unfold bind at 1. erewrite with_retry_fault by eassumption.
  unfold post_receive_clauses. rewrite Hc.
  destruct raise_on_error; [reflexivity|].
  cbn -[plugin_error_message post_receive_loop].
  now destruct (post_receive_loop false false cfg rest alert u w1) as [[r w2] t2].
Qed.

(** *** status *)

Lemma status_loop_suppressed ps alert status text u (w : W) :
  is_suppressed alert = true ->
  status_loop raise_on_error cfg ps (alert, status, text, u) w
  = (Ok (alert, status, text, u), w, []).
Proof. intros H. destruct ps; [reflexivity|]. cbn [status_loop]. now rewrite H. Qed.

Lemma status_loop_cons (plugin : Plugin W) rest alert status text u :
  is_suppressed alert = false ->
  status_loop raise_on_error cfg (plugin :: rest) (alert, status, text, u)
  = bind (with_retry (name plugin) StatusChange (status_change plugin alert status text) cfg
            (status_clauses raise_on_error plugin))
         (fun updated => status_loop raise_on_error cfg rest
                           (merge_status updated (alert, status, text, u))).
Proof. intros H. cbn [status_loop]. now rewrite H. Qed.

Lemma status_returned (plugin : Plugin W) rest alert status text u w o w1 th :
  is_suppressed alert = false ->
  invoke_compat (name plugin) StatusChange (status_change plugin alert status text) cfg w
  = (Ok o, w1, th) ->
  status_loop raise_on_error cfg (plugin :: rest) (alert, status, text, u) w
  = prepend th (status_loop raise_on_error cfg rest
                  (merge_status o (alert, status, text, u)) w1).
Proof.
  intros Hs Hi. rewrite status_loop_cons by assumption.
  now erewrite bind_ok by (apply with_retry_ok; eassumption).
Qed.


Lemma status_fault (plugin : Plugin W) rest alert status text u w e w1 :
  is_suppressed alert = false ->
  status_change plugin alert status text (Some cfg) w = (Raise e, w1) ->
  isinstance e [TypeError] = false ->
  isinstance e [RejectException; AlertaException] = false ->
  status_loop raise_on_error cfg (plugin :: rest) (alert, status, text, u) w
  = if raise_on_error then
      (Raise (mkExc ApiError (plugin_error_message "status" plugin e)), w1,
       [EvHook (name plugin) StatusChange Canonical])
    else
      prepend [EvHook (name plugin) StatusChange Canonical;
               EvLog (plugin_error_message "status" plugin e)]
              (status_loop raise_on_error cfg rest (alert, status, text, u) w1).
Proof.
  intros Hs Hh HT Hc. rewrite status_loop_cons by assumption.
  unfold bind at 1. erewrite with_retry_fault by eassumption.
  unfold status_clauses. rewrite Hc.
  destruct raise_on_error; [reflexivity|].
  cbn -[plugin_error_message status_loop].
  now destruct (status_loop false cfg rest (alert, status, text, u) w1) as [[r w2] t2].
Qed.

End RetryLoops.

(** ** The loops without a retry: action, note, delete *)

Section PlainLoops.

Context {W : Type}.
Variable raise_on_error : bool.
Variable cfg : Config.

(** *** action *)

Lemma action_loop_suppressed ps alert action text timeout u (w : W) :
  is_suppressed alert = true ->
  action_loop raise_on_error cfg ps (alert, action, text, timeout, u) w
  = (Ok (alert, action, text, timeout, u), w, []).
Proof. intros H. destruct ps; [reflexivity|]. cbn [action_loop]. now rewrite H. Qed.

Lemma action_loop_cons (plugin : Plugin W) rest alert action text timeout u :
  is_suppressed alert = false ->
  action_loop raise_on_error cfg (plugin :: rest) (alert, action, text, timeout, u)
  = bind (try_except
            (call (EvHook (name plugin) TakeAction Canonical)
                  (take_action plugin alert action text timeout (Some cfg)))
            (action_clauses raise_on_error plugin))
         (fun updated => action_loop raise_on_error cfg rest
                           (merge_action updated (alert, action, text, timeout, u))).
Proof. intros H. cbn [action_loop]. now rewrite H. Qed.

Lemma action_returned (plugin : Plugin W) rest alert action text timeout u w o w1 :
  is_suppressed alert = false ->
  take_action plugin alert action text timeout (Some cfg) w = (Ok o, w1) ->
  action_loop raise_on_error cfg (plugin :: rest) (alert, action, text, timeout, u) w
  = prepend [EvHook (name plugin) TakeAction Canonical]
      (action_loop raise_on_error cfg rest
         (merge_action o (alert, action, text, timeout, u)) w1).
Proof.
  intros Hs Hh. rewrite action_loop_cons by assumption.
  now erewrite bind_ok by (apply try_call_ok; eassumption).
Qed.

Lemma action_raised (plugin : Plugin W) rest alert action text timeout u w e w1 :
  is_suppressed alert = false ->
  take_action plugin alert action text timeout (Some cfg) w = (Raise e, w1) ->
  action_loop raise_on_error cfg (plugin :: rest) (alert, action, text, timeout, u) w
  = prepend [EvHook (name plugin) TakeAction Canonical]
      (bind (action_clauses raise_on_error plugin e)
            (fun updated => action_loop raise_on_error cfg rest
                              (merge_action updated (alert, action, text, timeout, u))) w1).
Proof.
  intros Hs Hh. rewrite action_loop_cons by assumption.
  unfold bind at 1. erewrite try_call_raise by eassumption.
  unfold bind.
  destruct (action_clauses raise_on_error plugin e w1) as [[[a|e'] w2] t2]; cbn [prepend].
  - now rewrite prepend_prepend.
  - reflexivity.
Qed.

Lemma action_unsupported (plugin : Plugin W) rest alert action text timeout u w e w1 :
  is_suppressed alert = false ->
  take_action plugin alert action text timeout (Some cfg) w = (Raise e, w1) ->
  isinstance e [NotImplementedError] = true ->
  action_loop raise_on_error cfg (plugin :: rest) (alert, action, text, timeout, u) w
  = prepend [EvHook (name plugin) TakeAction Canonical]
      (action_loop raise_on_error cfg rest (alert, action, text, timeout, u) w1).
Proof.
  intros Hs Hh Hn. erewrite action_raised by eassumption. f_equal.
  unfold bind, action_clauses. rewrite Hn. cbn [ret merge_action].
  apply prepend_nil.
Qed.

Lemma action_signal (plugin : Plugin W) rest alert action text timeout u w e w1 :
  is_suppressed alert = false ->
  take_action plugin alert action text timeout (Some cfg) w = (Raise e, w1) ->
  isinstance e [RejectException; ForwardingLoop; InvalidAction; AlertaException] = true ->
  action_loop raise_on_error cfg (plugin :: rest) (alert, action, text, timeout, u) w
  = (Raise e, w1, [EvHook (name plugin) TakeAction Canonical]).
Proof.
  intros Hs Hh Hc. erewrite action_raised by eassumption.
  unfold bind, action_clauses.
  rewrite (control_not_NotImplementedError _ (proj1 (proj2 (proj2 (named_is_control_signal e))) Hc)), Hc.
  reflexivity.
Qed.

Lemma action_fault (plugin : Plugin W) rest alert action text timeout u w e w1 :
  is_suppressed alert = false ->
  take_action plugin alert action text timeout (Some cfg) w = (Raise e, w1) ->
  isinstance e [NotImplementedError] = false ->
  isinstance e [RejectException; ForwardingLoop; InvalidAction; AlertaException] = false ->
  action_loop raise_on_error cfg (plugin :: rest) (alert, action, text, timeout, u) w
  = if raise_on_error then
      (Raise (mkExc ApiError (plugin_error_message "action" plugin e)), w1,
       [EvHook (name plugin) TakeAction Canonical])
    else
      prepend [EvHook (name plugin) TakeAction Canonical;
               EvLog (plugin_error_message "action" plugin e)]
              (action_loop raise_on_error cfg rest (alert, action, text, timeout, u) w1).
Proof.
  intros Hs Hh Hn Hc. erewrite action_raised by eassumption.
  unfold bind, action_clauses. rewrite Hn, Hc.
  destruct raise_on_error; [reflexivity|].
  cbn -[plugin_error_message action_loop].
  now destruct (action_loop false cfg rest (alert, action, text, timeout, u) w1)
    as [[r w2] t2].
Qed.

(** *** note *)

Lemma note_loop_cons (plugin : Plugin W) rest alert text u :
  note_loop raise_on_error cfg (plugin :: rest) (alert, text, u)
  = bind (try_except
            (call (EvHook (name plugin) TakeNote Canonical)
                  (take_note plugin alert text (Some cfg)))
            (note_clauses raise_on_error plugin))
         (fun updated => note_loop raise_on_error cfg rest
                           (merge_note updated (alert, text, u))).
Proof. reflexivity. Qed.

Lemma note_returned (plugin : Plugin W) rest alert text u w o w1 :
  take_note plugin alert text (Some cfg) w = (Ok o, w1) ->
  note_loop raise_on_error cfg (plugin :: rest) (alert, text, u) w
  = prepend [EvHook (name plugin) TakeNote Canonical]
      (note_loop raise_on_error cfg rest (merge_note o (alert, text, u)) w1).
Proof.
  intros Hh. rewrite note_loop_cons.
  now erewrite bind_ok by (apply try_call_ok; eassumption).
Qed.

Lemma note_raised (plugin : Plugin W) rest alert text u w e w1 :
  take_note plugin alert text (Some cfg) w = (Raise e, w1) ->
  note_loop raise_on_error cfg (plugin :: rest) (alert, text, u) w
  = prepend [EvHook (name plugin) TakeNote Canonical]
      (bind (note_clauses raise_on_error plugin e)
            (fun updated => note_loop raise_on_error cfg rest
                              (merge_note updated (alert, text, u))) w1).
Proof.
  intros Hh. rewrite note_loop_cons.
  unfold bind at 1. erewrite try_call_raise by eassumption.
  unfold bind.
  destruct (note_clauses raise_on_error plugin e w1) as [[[a|e'] w2] t2]; cbn [prepend].
  - now rewrite prepend_prepend.
  - reflexivity.
Qed.

Lemma note_unsupported (plugin : Plugin W) rest alert text u w e w1 :
  take_note plugin alert text (Some cfg) w = (Raise e, w1) ->
  isinstance e [NotImplementedError] = true ->
  note_loop raise_on_error cfg (plugin :: rest) (alert, text, u) w
  = prepend [EvHook (name plugin) TakeNote Canonical]
      (note_loop raise_on_error cfg rest (alert, text, u) w1).
Proof.
  intros Hh Hn. erewrite note_raised by eassumption. f_equal.
  unfold bind, note_clauses. rewrite Hn. cbn [ret merge_note].
  apply prepend_nil.
Qed.

Lemma note_signal (plugin : Plugin W) rest alert text u w e w1 :
  take_note plugin alert text (Some cfg) w = (Raise e, w1) ->
  isinstance e [RejectException; ForwardingLoop; AlertaException] = true ->
  note_loop raise_on_error cfg (plugin :: rest) (alert, text, u) w
  = (Raise e, w1, [EvHook (name plugin) TakeNote Canonical]).
Proof.
  intros Hh Hc. erewrite note_raised by eassumption.
  unfold bind, note_clauses.
  rewrite (control_not_NotImplementedError _ (proj1 (proj2 (proj2 (proj2 (named_is_control_signal e)))) Hc)), Hc.
  reflexivity.
Qed.

Lemma note_fault (plugin : Plugin W) rest alert text u w e w1 :
  take_note plugin alert text (Some cfg) w = (Raise e, w1) ->
  isinstance e [NotImplementedError] = false ->
  isinstance e [RejectException; ForwardingLoop; AlertaException] = false ->
  note_loop raise_on_error cfg (plugin :: rest) (alert, text, u) w
  = if raise_on_error then
      (Raise (mkExc ApiError (plugin_error_message "note" plugin e)), w1,
       [EvHook (name plugin) TakeNote Canonical])
    else
      prepend [EvHook (name plugin) TakeNote Canonical;
               EvLog (plugin_error_message "note" plugin e)]
              (note_loop raise_on_error cfg rest (alert, text, u) w1).
Proof.
  intros Hh Hn Hc. erewrite note_raised by eassumption.
  unfold bind, note_clauses. rewrite Hn, Hc.
  destruct raise_on_error; [reflexivity|].
  cbn -[plugin_error_message note_loop].
  now destruct (note_loop false cfg rest (alert, text, u) w1) as [[r w2] t2].
Qed.

(** *** delete *)

Lemma delete_loop_denied (ps : list (Plugin W)) alert w :
  delete_loop raise_on_error cfg ps alert false w = (Ok false, w, []).
Proof.
  revert w. induction ps as [|plugin rest IH]; intros w; [reflexivity|].
  cbn [delete_loop]. unfold bind, try_except. cbn [ret prepend app].
  rewrite IH. reflexivity.
Qed.

Lemma delete_loop_cons (plugin : Plugin W) rest alert :
  delete_loop raise_on_error cfg (plugin :: rest) alert true
  = bind (try_except
            (call (EvHook (name plugin) Delete Canonical)
                  (delete plugin alert (Some cfg)))
            (delete_clauses raise_on_error plugin true))
         (fun verdict => delete_loop raise_on_error cfg rest alert verdict).
Proof. reflexivity. Qed.

Lemma delete_returned (plugin : Plugin W) rest alert w v w1 :
  delete plugin alert (Some cfg) w = (Ok v, w1) ->
  delete_loop raise_on_error cfg (plugin :: rest) alert true w
  = prepend [EvHook (name plugin) Delete Canonical]
      (delete_loop raise_on_error cfg rest alert v w1).
Proof.
  intros Hh. rewrite delete_loop_cons.
  now erewrite bind_ok by (apply try_call_ok; eassumption).
Qed.

Lemma delete_raised (plugin : Plugin W) rest alert w e w1 :
  delete plugin alert (Some cfg) w = (Raise e, w1) ->
  delete_loop raise_on_error cfg (plugin :: rest) alert true w
  = prepend [EvHook (name plugin) Delete Canonical]
      (bind (delete_clauses raise_on_error plugin true e)
            (fun verdict => delete_loop raise_on_error cfg rest alert verdict) w1).
Proof.
  intros Hh. rewrite delete_loop_cons.
  unfold bind at 1. erewrite try_call_raise by eassumption.
  unfold bind.
  destruct (delete_clauses raise_on_error plugin true e w1) as [[[a|e'] w2] t2];
    cbn [prepend].
  - now rewrite prepend_prepend.
  - reflexivity.
Qed.

Lemma delete_unsupported (plugin : Plugin W) rest alert w e w1 :
  delete plugin alert (Some cfg) w = (Raise e, w1) ->
  isinstance e [NotImplementedError] = true ->
  delete_loop raise_on_error cfg (plugin :: rest) alert true w
  = prepend [EvHook (name plugin) Delete Canonical]
      (delete_loop raise_on_error cfg rest alert true w1).
Proof.
  intros Hh Hn. erewrite delete_raised by eassumption. f_equal.
  unfold bind, delete_clauses. rewrite Hn. cbn [ret].
  apply prepend_nil.
Qed.

Lemma delete_signal (plugin : Plugin W) rest alert w e w1 :
  delete plugin alert (Some cfg) w = (Raise e, w1) ->
  isinstance e [RejectException; AlertaException] = true ->
  delete_loop raise_on_error cfg (plugin :: rest) alert true w
  = (Raise e, w1, [EvHook (name plugin) Delete Canonical]).
Proof.
  intros Hh Hc. erewrite delete_raised by eassumption.
  unfold bind, delete_clauses.
  rewrite (control_not_NotImplementedError _ (proj2 (proj2 (proj2 (proj2 (named_is_control_signal e)))) Hc)), Hc.
  reflexivity.
Qed.

Lemma delete_fault (plugin : Plugin W) rest alert w e w1 :
  delete plugin alert (Some cfg) w = (Raise e, w1) ->
  isinstance e [NotImplementedError] = false ->
  isinstance e [RejectException; AlertaException] = false ->
  delete_loop raise_on_error cfg (plugin :: rest) alert true w
  = if raise_on_error then
      (Raise (mkExc ApiError (plugin_error_message "delete" plugin e)), w1,
       [EvHook (name plugin) Delete Canonical])
    else
      prepend [EvHook (name plugin) Delete Canonical;
               EvLog (plugin_error_message "delete" plugin e)]
              (delete_loop raise_on_error cfg rest alert true w1).
Proof.
  intros Hh Hn Hc. erewrite delete_raised by eassumption.
  unfold bind, delete_clauses. rewrite Hn, Hc.
  destruct raise_on_error; [reflexivity|].
  cbn -[plugin_error_message delete_loop].
  now destruct (delete_loop false cfg rest alert true w1) as [[r w2] t2].
Qed.

End PlainLoops.

(** ** A chain split in two: the loop over [pre ++ q] runs [pre], then [q] *)

Section Chains.

Context {W : Type}.
Variable raise_on_error : bool.
Variable cfg : Config.

Lemma bind_ext A B (m : M W A) (f g : A -> M W B) w :
  (forall a w', f a w' = g a w') -> bind m f w = bind m g w.
Proof.
  intros H. unfold bind. destruct (m w) as [[[a|e] w1] t1]; [|reflexivity].
  now rewrite H.
Qed.

Lemma bind_ret A B (a : A) (f : A -> M W B) w : bind (ret a) f w = f a w.
Proof. unfold bind, ret. apply prepend_nil. Qed.






Lemma delete_loop_app (pre q : list (Plugin W)) alert verdict w :
  delete_loop raise_on_error cfg (pre ++ q) alert verdict w
  = bind (delete_loop raise_on_error cfg pre alert verdict)
         (fun v => delete_loop raise_on_error cfg q alert v) w.
Proof.
  revert verdict w. induction pre as [|plugin rest IH]; intros verdict w.
  - cbn [app delete_loop]. now rewrite bind_ret.
  - cbn [app delete_loop].
    rewrite bind_assoc. apply bind_ext. intros v w'. apply IH.
Qed.

End Chains.

(** ** Which events a computation can emit *)

Section Traces.

Context {W : Type}.
Variable P : Event -> Prop.

Lemma trace_prepend A t (x : outcome A * W * list Event) :
  Forall P t -> Forall P (trace_of x) -> Forall P (trace_of (prepend t x)).
Proof.
  destruct x as [[r w] t']. unfold trace_of. cbn. intros H1 H2.
  apply Forall_app. now split.
Qed.

Lemma trace_ret A (a : A) (w : W) : Forall P (trace_of (ret a w)).
Proof. constructor. Qed.

Lemma trace_raise A e (w : W) : Forall P (trace_of (@raise W A e w)).
Proof. constructor. Qed.

Lemma trace_call A ev (f : Ext W A) w : P ev -> Forall P (trace_of (call ev f w)).
Proof.
  intros H. unfold call. destruct (f w) as [r w1]. unfold trace_of. cbn.
  now repeat constructor.
Qed.

Lemma trace_log msg (w : W) : P (EvLog msg) -> Forall P (trace_of (logging_error msg w)).
Proof. intros H. unfold trace_of. cbn. now repeat constructor. Qed.

Lemma trace_bind A B (m : M W A) (f : A -> M W B) w :
  Forall P (trace_of (m w)) ->
  (forall a w', Forall P (trace_of (f a w'))) ->
  Forall P (trace_of (bind m f w)).
Proof.
  intros Hm Hf. unfold bind. destruct (m w) as [[[a|e] w1] t1]; [|exact Hm].
  apply trace_prepend; [exact Hm | apply Hf].
Qed.

Lemma trace_try A (body : M W A) (handler : Exc -> M W A) w :
  Forall P (trace_of (body w)) ->
  (forall e w', Forall P (trace_of (handler e w'))) ->
  Forall P (trace_of (try_except body handler w)).
Proof.
  intros Hm Hf. unfold try_except. destruct (body w) as [[[a|e] w1] t1]; [exact Hm|].
  apply trace_prepend; [exact Hm | apply Hf].
Qed.

End Traces.

(** Breaks a goal about the events of a computation down along its
    syntax; leaves the events themselves and the recursive calls. *)
Ltac trace_step :=
  match goal with
  | |- Forall _ (trace_of (bind _ _ _)) => apply trace_bind; [|intros ? ?]
  | |- Forall _ (trace_of (try_except _ _ _)) => apply trace_try; [|intros ? ?]
  | |- Forall _ (trace_of (call _ _ _)) => apply trace_call
  | |- Forall _ (trace_of (logging_error _ _)) => apply trace_log
  | |- Forall _ (trace_of (ret _ _)) => apply trace_ret
  | |- Forall _ (trace_of (raise _ _)) => apply trace_raise
  | |- Forall _ (trace_of (prepend _ _)) => apply trace_prepend
  | |- Forall _ (trace_of ((if ?b then _ else _) _)) => destruct b
  | |- Forall _ (trace_of (match ?x with (_, _) => _ end _)) => destruct x
  | |- Forall _ (trace_of (match ?x with Some _ => _ | None => _ end _)) => destruct x
  end.

Section LifecycleAndPhases.

Context {W : Type}.
Variable routing : Alert -> Ext W (list (Plugin W) * Config).
Variable db : AlertModel W.
Variable raise_on_error : bool.

(** The three ways through lifecycle resolution, in one equation. *)
Lemma resolve_lifecycle_run alert w :
  resolve_lifecycle db alert w
  = match is_duplicate db alert w with
    | (Raise e, w1) => (Raise (mkExc ApiError (str e)), w1, [EvIsDuplicate alert])
    | (Ok (Some m), w1) =>
        match deduplicate db alert m w1 with
        | (r, w2) => (wrap_api_error r, w2, [EvIsDuplicate alert; EvDeduplicate alert m])
        end
    | (Ok None, w1) =>
        match is_correlated db alert w1 with
        | (Raise e, w2) =>
            (Raise (mkExc ApiError (str e)), w2, [EvIsDuplicate alert; EvIsCorrelated alert])
        | (Ok (Some m), w2) =>
            match update db alert m w2 with
            | (r, w3) => (wrap_api_error r, w3,
                          [EvIsDuplicate alert; EvIsCorrelated alert; EvUpdate alert m])
            end
        | (Ok None, w2) =>
            match create db alert w2 with
            | (r, w3) => (wrap_api_error r, w3,
                          [EvIsDuplicate alert; EvIsCorrelated alert; EvCreate alert])
            end
        end
    end.
Proof.
  unfold resolve_lifecycle, try_except, bind, call.
  destruct (is_duplicate db alert w) as [[[m|]|e] w1]; cbn.
  - now destruct (deduplicate db alert m w1) as [[a|e] w2].
  - destruct (is_correlated db alert w1) as [[[m|]|e] w2]; cbn.
    + now destruct (update db alert m w2) as [[a|e] w3].
    + now destruct (create db alert w2) as [[a|e] w3].
    + reflexivity.
  - reflexivity.
Qed.

Lemma resolve_lifecycle_events alert w :
  Forall (fun ev => is_lifecycle_event ev = true)
         (trace_of (resolve_lifecycle db alert w)).
Proof.
  unfold resolve_lifecycle. repeat trace_step; reflexivity.
Qed.

Lemma pre_receive_loop_events cfg ps alert (w : W) :
  Forall (fun ev => is_hook_event ev = true \/ is_log_event ev = true)
         (trace_of (pre_receive_loop raise_on_error cfg ps alert w)).
Proof.
  revert alert w. induction ps as [|plugin rest IH]; intros alert w.
  - constructor.
  - cbn [pre_receive_loop]. repeat trace_step; auto.
Qed.

Lemma post_receive_loop_events skip cfg ps alert u (w : W) :
  Forall (fun ev => is_hook_event ev = true \/ is_log_event ev = true)
         (trace_of (post_receive_loop raise_on_error skip cfg ps alert u w)).
Proof.
  revert alert u w. induction ps as [|plugin rest IH]; intros alert u w.
  - constructor.
  - cbn [post_receive_loop]. repeat trace_step; auto.
Qed.

(** A loop that raises ends its pipeline: nothing after the loop runs. *)
Lemma process_alert_aborts_before_receive alert w ps cfg w0 e w1 t :
  routing alert w = (Ok (ps, cfg), w0) ->
  pre_receive_loop raise_on_error cfg ps alert w0 = (Raise e, w1, t) ->
  process_alert routing db raise_on_error alert w = (Raise e, w1, EvRouting alert :: t).
Proof.
  intros Hr Hl. unfold process_alert.
  erewrite bind_ok by (apply call_run; eassumption). cbn beta iota.
  now erewrite bind_raise by eassumption.
Qed.

Lemma process_action_aborts alert action text timeout w ps cfg w0 e w1 t :
  routing alert w = (Ok (ps, cfg), w0) ->
  action_loop raise_on_error cfg ps (alert, action, text, timeout, false) w0
  = (Raise e, w1, t) ->
  process_action routing db raise_on_error alert action text timeout w
  = (Raise e, w1, EvRouting alert :: t).
Proof.
  intros Hr Hl. unfold process_action.
  erewrite bind_ok by (apply call_run; eassumption). cbn beta iota.
  now erewrite bind_raise by eassumption.
Qed.

Lemma process_note_aborts alert text w ps cfg w0 e w1 t :
  routing alert w = (Ok (ps, cfg), w0) ->
  note_loop raise_on_error cfg ps (alert, text, false) w0 = (Raise e, w1, t) ->
  process_note routing db raise_on_error alert text w = (Raise e, w1, EvRouting alert :: t).
Proof.
  intros Hr Hl. unfold process_note.
  erewrite bind_ok by (apply call_run; eassumption). cbn beta iota.
  now erewrite bind_raise by eassumption.
Qed.

Lemma process_status_aborts alert status text w ps cfg w0 e w1 t :
  routing alert w = (Ok (ps, cfg), w0) ->
  status_loop raise_on_error cfg ps (alert, status, text, false) w0 = (Raise e, w1, t) ->
  process_status routing db raise_on_error alert status text w
  = (Raise e, w1, EvRouting alert :: t).
Proof.
  intros Hr Hl. unfold process_status.
  erewrite bind_ok by (apply call_run; eassumption). cbn beta iota.
  now erewrite bind_raise by eassumption.
Qed.

Lemma process_delete_aborts alert w ps cfg w0 e w1 t :
  routing alert w = (Ok (ps, cfg), w0) ->
  delete_loop raise_on_error cfg ps alert true w0 = (Raise e, w1, t) ->
  process_delete routing db raise_on_error alert w = (Raise e, w1, EvRouting alert :: t).
Proof.
  intros Hr Hl. unfold process_delete.
  erewrite bind_ok by (apply call_run; eassumption). cbn beta iota.
  now erewrite bind_raise by eassumption.
Qed.

End LifecycleAndPhases.

(** * The claims *)

Section Claims.

Context {W : Type}.
Variable routing : Alert -> Ext W (list (Plugin W) * Config).
Variable db : AlertModel W.
Variable raise_on_error : bool.

Lemma lifecycle_event_is_no_hook_or_resync ev :
  is_lifecycle_event ev = true -> is_hook_event ev = false /\ is_resync_event ev = false.
Proof. destruct ev; cbn; intros H; solve [split; reflexivity | discriminate H]. Qed.

(** C1 (amended).  If the alert's suppressed flag is true at pipeline
    entry then: in the action and the status pipeline, for every plugin
    chain, the loop leaves the running state as it is with the mutated
    flag false, the only event of the run is the routing lookup (no hook
    is invoked, no update_tags or update_attributes call is made) and
    the alert and the auxiliary fields are returned unchanged; in the
    receive pipeline, for every non-empty pre-receive chain, the first
    loop stops at once with skip_plugins set, the second loop then
    leaves alert and mutated flag as they are, the run is the routing
    lookup, lifecycle resolution of the unchanged input alert and the
    second routing lookup, it returns what lifecycle resolution
    returned, and its trace has no hook invocation and no resync call. *)
Theorem suppressed_at_entry_runs_no_plugin alert w :
  is_suppressed alert = true ->
  (forall ps cfg w0 action text timeout,
      routing alert w = (Ok (ps, cfg), w0) ->
      action_loop raise_on_error cfg ps (alert, action, text, timeout, false) w0
      = (Ok (alert, action, text, timeout, false), w0, [])
      /\ process_action routing db raise_on_error alert action text timeout w
         = (Ok (alert, action, text, timeout), w0, [EvRouting alert]))
  /\ (forall ps cfg w0 status text,
      routing alert w = (Ok (ps, cfg), w0) ->
      status_loop raise_on_error cfg ps (alert, status, text, false) w0
      = (Ok (alert, status, text, false), w0, [])
      /\ process_status routing db raise_on_error alert status text w
         = (Ok (alert, status, text), w0, [EvRouting alert]))
  /\ (forall plugin ps cfg w0,
      routing alert w = (Ok (plugin :: ps, cfg), w0) ->
      pre_receive_loop raise_on_error cfg (plugin :: ps) alert w0
      = (Ok (alert, true), w0, [])
      /\ (forall cfg' (ps' : list (Plugin W)) a w',
            post_receive_loop raise_on_error true cfg' ps' a false w' = (Ok (a, false), w', []))
      /\ process_alert routing db raise_on_error alert w
         = prepend [EvRouting alert]
             (bind (resolve_lifecycle db alert)
                   (fun a => bind (call (EvRouting a) (routing a)) (fun _ => ret a)) w0)
      /\ Forall (fun ev => is_hook_event ev = false /\ is_resync_event ev = false)
                (trace_of (process_alert routing db raise_on_error alert w))).
Proof.
  intros Hs. split; [|split].
  - intros ps cfg w0 action text timeout Hr.
    split; [now apply action_loop_suppressed|].
    unfold process_action.
    erewrite bind_ok by (apply call_run; eassumption). cbn beta iota.
    erewrite bind_ok by (apply action_loop_suppressed; assumption).
    reflexivity.
  - intros ps cfg w0 status text Hr.
    split; [now apply status_loop_suppressed|].
    unfold process_status.
    erewrite bind_ok by (apply call_run; eassumption). cbn beta iota.
    erewrite bind_ok by (apply status_loop_suppressed; assumption).
    reflexivity.
  - intros plugin ps cfg w0 Hr.
    assert (Hrun : process_alert routing db raise_on_error alert w
                   = prepend [EvRouting alert]
                       (bind (resolve_lifecycle db alert)
                          (fun a => bind (call (EvRouting a) (routing a))
                                         (fun _ => ret a)) w0)).
    { unfold process_alert.
      erewrite bind_ok by (apply call_run; eassumption). cbn beta iota.
      erewrite bind_ok by (apply pre_receive_loop_suppressed; assumption).
      rewrite prepend_nil. f_equal.
      apply bind_ext. intros a w1. apply bind_ext. intros [ps' cfg'] w2.
      erewrite bind_ok by apply post_receive_loop_skipped.
      reflexivity. }
    split; [now apply pre_receive_loop_suppressed|].
    split; [intros; apply post_receive_loop_skipped|]. split; [exact Hrun|].
    rewrite Hrun. apply trace_prepend; [repeat constructor|].
    apply trace_bind.
    + eapply Forall_impl; [|apply resolve_lifecycle_events].
      intros ev. apply lifecycle_event_is_no_hook_or_resync.
    + intros a w1. repeat trace_step; split; reflexivity.
Qed.

(** C5.  Lifecycle resolution of the receive pipeline: when the
    duplicate check returns a match, deduplicate(match) is invoked and
    the stage makes no other call (neither create nor update); otherwise
    when the correlation check returns a match, update(match) is
    invoked; otherwise create() is invoked, once.  Whatever exception
    one of these calls raises, a domain control signal included, the
    stage raises an ApiError carrying its message; the stage raises
    nothing else. *)
Theorem lifecycle_resolution_dispatch alert w :
  (forall m w1,
      is_duplicate db alert w = (Ok (Some m), w1) ->
      exists r w2,
        deduplicate db alert m w1 = (r, w2)
        /\ resolve_lifecycle db alert w
           = (wrap_api_error r, w2, [EvIsDuplicate alert; EvDeduplicate alert m]))
  /\ (forall w1 m w2,
      is_duplicate db alert w = (Ok None, w1) ->
      is_correlated db alert w1 = (Ok (Some m), w2) ->
      exists r w3,
        update db alert m w2 = (r, w3)
        /\ resolve_lifecycle db alert w
           = (wrap_api_error r, w3,
              [EvIsDuplicate alert; EvIsCorrelated alert; EvUpdate alert m]))
  /\ (forall w1 w2,
      is_duplicate db alert w = (Ok None, w1) ->
      is_correlated db alert w1 = (Ok None, w2) ->
      exists r w3,
        create db alert w2 = (r, w3)
        /\ resolve_lifecycle db alert w
           = (wrap_api_error r, w3,
              [EvIsDuplicate alert; EvIsCorrelated alert; EvCreate alert]))
  /\ (forall e w1,
      is_duplicate db alert w = (Raise e, w1) ->
      resolve_lifecycle db alert w
      = (Raise (mkExc ApiError (str e)), w1, [EvIsDuplicate alert]))
  /\ (forall w1 e w2,
      is_duplicate db alert w = (Ok None, w1) ->
      is_correlated db alert w1 = (Raise e, w2) ->
      resolve_lifecycle db alert w
      = (Raise (mkExc ApiError (str e)), w2, [EvIsDuplicate alert; EvIsCorrelated alert]))
  /\ (forall e w' t,
      resolve_lifecycle db alert w = (Raise e, w', t) -> exc_class e = ApiError)
  /\ (forall ps cfg w0 a1 skip w1 t1 m w2,
      routing alert w = (Ok (ps, cfg), w0) ->
      pre_receive_loop raise_on_error cfg ps alert w0 = (Ok (a1, skip), w1, t1) ->
      is_duplicate db a1 w1 = (Ok (Some m), w2) ->
      let t := trace_of (process_alert routing db raise_on_error alert w) in
      In (EvDeduplicate a1 m) t /\ Forall (fun ev => is_create_or_update ev = false) t).
Proof.
  repeat match goal with |- _ /\ _ => split end;
    try (intros ps cfg w0 a1 skip w1 t1 m w2 H H0 H1 t; split).
  - intros m w1 H. rewrite resolve_lifecycle_run, H.
    destruct (deduplicate db alert m w1) as [r w2]. now exists r, w2.
  - intros w1 m w2 H1 H2. rewrite resolve_lifecycle_run, H1, H2.
    destruct (update db alert m w2) as [r w3]. now exists r, w3.
  - intros w1 w2 H1 H2. rewrite resolve_lifecycle_run, H1, H2.
    destruct (create db alert w2) as [r w3]. now exists r, w3.
  - intros e w1 H. now rewrite resolve_lifecycle_run, H.
  - intros w1 e w2 H1 H2. now rewrite resolve_lifecycle_run, H1, H2.
  - intros e w' t. rewrite resolve_lifecycle_run.
    destruct (is_duplicate db alert w) as [[[m|]|e0] w1].
    + destruct (deduplicate db alert m w1) as [[a|e1] w2]; cbn; intros H;
        inversion H; reflexivity.
    + destruct (is_correlated db alert w1) as [[[m|]|e1] w2].
      * destruct (update db alert m w2) as [[a|e2] w3]; cbn; intros H;
          inversion H; reflexivity.
      * destruct (create db alert w2) as [[a|e2] w3]; cbn; intros H;
          inversion H; reflexivity.
      * intros H; inversion H; reflexivity.
    + intros H; inversion H; reflexivity.
  - assert (Ht : exists tl,
               trace_of (process_alert routing db raise_on_error alert w)
               = EvRouting alert :: t1 ++ EvIsDuplicate a1 :: EvDeduplicate a1 m :: tl).
    { unfold process_alert.
      erewrite bind_ok by (apply call_run; eassumption). cbn beta iota.
      erewrite bind_ok by eassumption. cbn beta iota.
      unfold bind at 1. rewrite resolve_lifecycle_run, H1.
      destruct (deduplicate db a1 m w2) as [[a2|e] w3]; cbn [wrap_api_error].
      - match goal with
        | |- context [prepend [EvIsDuplicate _; _] ?x] => destruct x as [[r w'] t']
        end.
        exists t'. reflexivity.
      - exists []. reflexivity. }
    destruct Ht as [tl Ht]. unfold t. rewrite Ht.
    right. apply in_or_app. right. right. now left.
  - unfold t, process_alert.
    erewrite bind_ok by (apply call_run; eassumption). cbn beta iota.
    apply trace_prepend; [repeat constructor|].
    erewrite bind_ok by eassumption. cbn beta iota.
    apply trace_prepend.
    + assert (Hev := pre_receive_loop_events raise_on_error cfg ps alert w0).
      rewrite H0 in Hev. eapply Forall_impl; [|exact Hev].
      intros [] [Hh|Hl]; cbn in *; congruence.
    + apply trace_bind.
      * rewrite resolve_lifecycle_run, H1.
        destruct (deduplicate db a1 m w2) as [r w3]. repeat constructor.
      * intros a2 w3. apply trace_bind; [now apply trace_call|].
        intros [ps' cfg'] w4. apply trace_bind.
        -- eapply Forall_impl; [|apply post_receive_loop_events].
           intros [] [Hh|Hl]; cbn in *; congruence.
        -- intros [a3 u] w5. repeat trace_step; reflexivity.
Qed.

Lemma delete_loop_invoked cfg alert (ps : list (Plugin W)) w vs w1 :
  invoked_verdicts cfg alert ps w = Some (vs, w1) ->
  delete_loop raise_on_error cfg ps alert true w
  = (Ok (forallb (fun v => v) vs), w1,
     map (fun p => EvHook (name p) Delete Canonical) (firstn (List.length vs) ps)).
Proof.
  revert w vs. induction ps as [|plugin rest IH]; intros w vs Hv.
  - cbn in Hv. inversion Hv; subst. reflexivity.
  - cbn [invoked_verdicts] in Hv.
    destruct (delete plugin alert (Some cfg) w) as [[[|]|e] w'] eqn:Hp.
    + destruct (invoked_verdicts cfg alert rest w') as [[vs' w'']|] eqn:Hrest;
        [|discriminate Hv].
      inversion Hv; subst.
      rewrite (delete_returned raise_on_error cfg plugin rest alert w Hp).
      rewrite (IH _ _ Hrest). reflexivity.
    + inversion Hv; subst.
      rewrite (delete_returned raise_on_error cfg plugin rest alert w Hp).
      rewrite delete_loop_denied. reflexivity.
    + discriminate Hv.
Qed.

(** C2 (amended).  In the delete pipeline the delete hooks are invoked
    in chain order while the running verdict is true: once a plugin
    returns a false verdict, no later plugin of the chain is invoked,
    whatever those plugins would do, and the alert is not deleted.  When
    every hook that is invoked returns a verdict, the combined verdict
    is the logical AND of these verdicts (true for the empty chain),
    and the alert model's delete() is invoked if and only if the
    combined verdict is true. *)
Theorem delete_verdict_is_conjunction alert w ps cfg w0 :
  routing alert w = (Ok (ps, cfg), w0) ->
  (forall pre plugin rest w1 t1 w2,
      ps = pre ++ plugin :: rest ->
      delete_loop raise_on_error cfg pre alert true w0 = (Ok true, w1, t1) ->
      delete plugin alert (Some cfg) w1 = (Ok false, w2) ->
      process_delete routing db raise_on_error alert w
      = (Ok false, w2, EvRouting alert :: t1 ++ [EvHook (name plugin) Delete Canonical]))
  /\ (forall vs w1,
      invoked_verdicts cfg alert ps w0 = Some (vs, w1) ->
      delete_loop raise_on_error cfg ps alert true w0
      = (Ok (forallb (fun v => v) vs), w1,
         map (fun p => EvHook (name p) Delete Canonical) (firstn (List.length vs) ps))
      /\ process_delete routing db raise_on_error alert w
         = prepend (EvRouting alert
                    :: map (fun p => EvHook (name p) Delete Canonical)
                           (firstn (List.length vs) ps))
             (if forallb (fun v => v) vs
              then call (EvDelete alert) (alert_delete db alert) w1
              else (Ok false, w1, []))
      /\ (In (EvDelete alert) (trace_of (process_delete routing db raise_on_error alert w))
          <-> forallb (fun v => v) vs = true)).
Proof.
  intros Hr. split.
  - intros pre plugin rest w1 t1 w2 -> Hpre Hp. unfold process_delete.
    erewrite bind_ok by (apply call_run; eassumption). cbn beta iota.
    erewrite bind_ok.
    2:{ rewrite delete_loop_app. erewrite bind_ok by eassumption.
        rewrite (delete_returned raise_on_error cfg plugin rest alert w1 Hp).
        rewrite delete_loop_denied. reflexivity. }
    cbn. now rewrite app_nil_r.
  - intros vs w1 Hv.
    assert (Hloop := delete_loop_invoked cfg alert ps w0 Hv).
    split; [exact Hloop|].
    assert (Hrun : process_delete routing db raise_on_error alert w
         = prepend (EvRouting alert
                    :: map (fun p => EvHook (name p) Delete Canonical)
                           (firstn (List.length vs) ps))
             (if forallb (fun v => v) vs
              then call (EvDelete alert) (alert_delete db alert) w1
              else (Ok false, w1, []))).
    { unfold process_delete.
      erewrite bind_ok by (apply call_run; eassumption). cbn beta iota.
      erewrite bind_ok by eassumption.
      rewrite prepend_prepend. cbn [app].
      now destruct (forallb (fun v => v) vs). }
    split; [exact Hrun|].
    rewrite Hrun. unfold call.
    destruct (forallb (fun v => v) vs); destruct (alert_delete db alert w1) as [r w2];
      unfold trace_of; cbn [prepend snd].
    + split; [reflexivity|]. intros _. right. apply in_or_app. right. now left.
    + split; [|discriminate]. intros [Hin|Hin]; [discriminate Hin|].
      rewrite app_nil_r in Hin. apply in_map_iff in Hin.
      destruct Hin as [p [Hp _]]. discriminate Hp.
Qed.



(** C4 (amended).  In every pipeline, when the canonical call of a
    plugin hook raises a fault that the pipeline classifies as generic
    (not a domain control signal; not NotImplementedError in the action,
    note and delete pipelines; not TypeError in the receive and status
    pipelines, where a TypeError starts the call without config
    instead), then under the strict policy the loop raises at once one
    error whose message names the pipeline stage and the plugin (a
    RuntimeError in the pre-receive phase, an ApiError elsewhere), and
    under the lenient policy the fault is logged with that message and
    the loop goes on with the next plugin from the unchanged running
    state. *)
Theorem generic_fault_follows_policy cfg (plugin : Plugin W) rest e w w1 :
  is_control_signal e = false ->
  (forall alert,
      is_suppressed alert = false ->
      pre_receive plugin alert (Some cfg) w = (Raise e, w1) ->
      isinstance e [TypeError] = false ->
      pre_receive_loop raise_on_error cfg (plugin :: rest) alert w
      = if raise_on_error then
          (Raise (mkExc RuntimeError (plugin_error_message "pre-receive" plugin e)), w1,
           [EvHook (name plugin) PreReceive Canonical])
        else
          prepend [EvHook (name plugin) PreReceive Canonical;
                   EvLog (plugin_error_message "pre-receive" plugin e)]
                  (pre_receive_loop raise_on_error cfg rest alert w1))
  /\ (forall alert u,
      post_receive plugin alert (Some cfg) w = (Raise e, w1) ->
      isinstance e [TypeError] = false ->
      post_receive_loop raise_on_error false cfg (plugin :: rest) alert u w
      = if raise_on_error then
          (Raise (mkExc ApiError (plugin_error_message "post-receive" plugin e)), w1,
           [EvHook (name plugin) PostReceive Canonical])
        else
          prepend [EvHook (name plugin) PostReceive Canonical;
                   EvLog (plugin_error_message "post-receive" plugin e)]
                  (post_receive_loop raise_on_error false cfg rest alert u w1))
  /\ (forall alert action text timeout u,
      is_suppressed alert = false ->
      take_action plugin alert action text timeout (Some cfg) w = (Raise e, w1) ->
      isinstance e [NotImplementedError] = false ->
      action_loop raise_on_error cfg (plugin :: rest) (alert, action, text, timeout, u) w
      = if raise_on_error then
          (Raise (mkExc ApiError (plugin_error_message "action" plugin e)), w1,
           [EvHook (name plugin) TakeAction Canonical])
        else
          prepend [EvHook (name plugin) TakeAction Canonical;
                   EvLog (plugin_error_message "action" plugin e)]
                  (action_loop raise_on_error cfg rest (alert, action, text, timeout, u) w1))
  /\ (forall alert text u,
      take_note plugin alert text (Some cfg) w = (Raise e, w1) ->
      isinstance e [NotImplementedError] = false ->
      note_loop raise_on_error cfg (plugin :: rest) (alert, text, u) w
      = if raise_on_error then
          (Raise (mkExc ApiError (plugin_error_message "note" plugin e)), w1,
           [EvHook (name plugin) TakeNote Canonical])
        else
          prepend [EvHook (name plugin) TakeNote Canonical;
                   EvLog (plugin_error_message "note" plugin e)]
                  (note_loop raise_on_error cfg rest (alert, text, u) w1))
  /\ (forall alert status text u,
      is_suppressed alert = false ->
      status_change plugin alert status text (Some cfg) w = (Raise e, w1) ->
      isinstance e [TypeError] = false ->
      status_loop raise_on_error cfg (plugin :: rest) (alert, status, text, u) w
      = if raise_on_error then
          (Raise (mkExc ApiError (plugin_error_message "status" plugin e)), w1,
           [EvHook (name plugin) StatusChange Canonical])
        else
          prepend [EvHook (name plugin) StatusChange Canonical;
                   EvLog (plugin_error_message "status" plugin e)]
                  (status_loop raise_on_error cfg rest (alert, status, text, u) w1))
  /\ (forall alert,
      delete plugin alert (Some cfg) w = (Raise e, w1) ->
      isinstance e [NotImplementedError] = false ->
      delete_loop raise_on_error cfg (plugin :: rest) alert true w
      = if raise_on_error then
          (Raise (mkExc ApiError (plugin_error_message "delete" plugin e)), w1,
           [EvHook (name plugin) Delete Canonical])
        else
          prepend [EvHook (name plugin) Delete Canonical;
                   EvLog (plugin_error_message "delete" plugin e)]
                  (delete_loop raise_on_error cfg rest alert true w1)).
Proof.
  intros Hc.
  destruct (outside_domain e Hc) as (Hpre & Hpost & Hact & Hnote & Hra).
  repeat match goal with |- _ /\ _ => split end; intros.
  - now apply pre_receive_fault.
  - now apply post_receive_fault.
  - now apply action_fault.
  - now apply note_fault.
  - now apply status_fault.
  - now apply delete_fault.
Qed.

(** C6 (amended).  Only the pre-receive phase of the receive pipeline
    requires a full alert: when a pre-receive hook (called with config,
    or without it after a TypeError) returns a falsy value, the loop
    raises the SyntaxError naming the plugin at once, whatever the fault
    policy.  In the post-receive phase, the action pipeline and the
    status pipeline a falsy return is no error and the loop goes on
    with the next plugin.  In the post-receive phase and the status
    pipeline the running state stays as it is; so it does in the action
    pipeline for None and for any other value that is neither an alert
    nor a tuple.  An empty tuple returned by an action hook is falsy but
    a tuple: it replaces no running field and sets the mutated flag, so
    that the resync runs at the end. *)
Theorem falsy_return_is_fatal_only_before_receive cfg (plugin : Plugin W) rest w w1 :
  (forall alert th,
      is_suppressed alert = false ->
      invoke_compat (name plugin) PreReceive (pre_receive plugin alert) cfg w
      = (Ok None, w1, th) ->
      pre_receive_loop raise_on_error cfg (plugin :: rest) alert w
      = (Raise (no_alert_returned plugin), w1, th))
  /\ (forall alert u th,
      invoke_compat (name plugin) PostReceive (post_receive plugin alert) cfg w
      = (Ok None, w1, th) ->
      post_receive_loop raise_on_error false cfg (plugin :: rest) alert u w
      = prepend th (post_receive_loop raise_on_error false cfg rest alert u w1))
  /\ (forall alert action text timeout u,
      is_suppressed alert = false ->
      take_action plugin alert action text timeout (Some cfg) w = (Ok ActNone, w1) ->
      action_loop raise_on_error cfg (plugin :: rest) (alert, action, text, timeout, u) w
      = prepend [EvHook (name plugin) TakeAction Canonical]
          (action_loop raise_on_error cfg rest (alert, action, text, timeout, u) w1))
  /\ (forall alert status text u th,
      is_suppressed alert = false ->
      invoke_compat (name plugin) StatusChange (status_change plugin alert status text) cfg w
      = (Ok StatusFalsy, w1, th) ->
      status_loop raise_on_error cfg (plugin :: rest) (alert, status, text, u) w
      = prepend th (status_loop raise_on_error cfg rest (alert, status, text, u) w1))
  /\ (forall alert action text timeout u,
      is_suppressed alert = false ->
      take_action plugin alert action text timeout (Some cfg) w = (Ok ActOther, w1) ->
      action_loop raise_on_error cfg (plugin :: rest) (alert, action, text, timeout, u) w
      = prepend [EvHook (name plugin) TakeAction Canonical]
          (action_loop raise_on_error cfg rest (alert, action, text, timeout, u) w1))
  /\ (forall alert action text timeout u,
      is_suppressed alert = false ->
      take_action plugin alert action text timeout (Some cfg) w = (Ok ActTupleOther, w1) ->
      action_loop raise_on_error cfg (plugin :: rest) (alert, action, text, timeout, u) w
      = prepend [EvHook (name plugin) TakeAction Canonical]
          (action_loop raise_on_error cfg rest (alert, action, text, timeout, true) w1))
  /\ (forall w0 alert action text timeout w2 attrs w3,
      is_suppressed alert = false ->
      routing alert w0 = (Ok ([plugin], cfg), w) ->
      take_action plugin alert action text timeout (Some cfg) w = (Ok ActTupleOther, w1) ->
      update_tags db alert (tags alert) w1 = (Ok tt, w2) ->
      update_attributes db alert (attributes alert) w2 = (Ok attrs, w3) ->
      process_action routing db raise_on_error alert action text timeout w0
      = (Ok (mkAlert (alert_id alert) (is_suppressed alert) (tags alert) attrs,
             action, text, timeout), w3,
         [EvRouting alert; EvHook (name plugin) TakeAction Canonical;
          EvUpdateTags alert (tags alert); EvUpdateAttributes alert (attributes alert)])).
Proof.
  repeat match goal with |- _ /\ _ => split end.
  - intros alert th Hs Hi.
    erewrite pre_receive_returned by eassumption. cbn. now rewrite app_nil_r.
  - intros alert u th Hi. now erewrite post_receive_returned by eassumption.
  - intros alert action text timeout u Hs Hh.
    now erewrite action_returned by eassumption.
  - intros alert status text u th Hs Hi.
    now erewrite status_returned by eassumption.
  - intros alert action text timeout u Hs Hh.
    now erewrite action_returned by eassumption.
  - intros alert action text timeout u Hs Hh.
    now erewrite action_returned by eassumption.
  - intros w0 alert action text timeout w2 attrs w3 Hs Hr Hh Htags Hattrs.
    unfold process_action.
    erewrite bind_ok by (apply call_run; eassumption). cbn beta iota.
    erewrite bind_ok by (erewrite action_returned by eassumption; reflexivity).
    cbn beta iota delta [merge_action].
    erewrite bind_ok by (apply call_run; eassumption).
    erewrite bind_ok by (apply call_run; eassumption).
    reflexivity.
Qed.

(** C7 (amended).  The action, note and delete pipelines treat a
    NotImplementedError raised by a hook as a silent skip: nothing is
    logged or raised, the running state (for delete, the running
    verdict) stays as it is and the loop goes on, whatever the fault
    policy.  The receive pipeline, in both phases, and the status
    pipeline have no such clause: there a NotImplementedError is a
    generic fault, raised wrapped under the strict policy and logged
    under the lenient one. *)
Theorem unsupported_operation_is_skipped cfg (plugin : Plugin W) rest e w w1 :
  isinstance e [NotImplementedError] = true ->
  (forall alert action text timeout u,
      is_suppressed alert = false ->
      take_action plugin alert action text timeout (Some cfg) w = (Raise e, w1) ->
      action_loop raise_on_error cfg (plugin :: rest) (alert, action, text, timeout, u) w
      = prepend [EvHook (name plugin) TakeAction Canonical]
          (action_loop raise_on_error cfg rest (alert, action, text, timeout, u) w1))
  /\ (forall alert text u,
      take_note plugin alert text (Some cfg) w = (Raise e, w1) ->
      note_loop raise_on_error cfg (plugin :: rest) (alert, text, u) w
      = prepend [EvHook (name plugin) TakeNote Canonical]
          (note_loop raise_on_error cfg rest (alert, text, u) w1))
  /\ (forall alert,
      delete plugin alert (Some cfg) w = (Raise e, w1) ->
      delete_loop raise_on_error cfg (plugin :: rest) alert true w
      = prepend [EvHook (name plugin) Delete Canonical]
          (delete_loop raise_on_error cfg rest alert true w1))
  /\ (forall alert,
      is_suppressed alert = false ->
      pre_receive plugin alert (Some cfg) w = (Raise e, w1) ->
      pre_receive_loop raise_on_error cfg (plugin :: rest) alert w
      = if raise_on_error then
          (Raise (mkExc RuntimeError (plugin_error_message "pre-receive" plugin e)), w1,
           [EvHook (name plugin) PreReceive Canonical])
        else
          prepend [EvHook (name plugin) PreReceive Canonical;
                   EvLog (plugin_error_message "pre-receive" plugin e)]
                  (pre_receive_loop raise_on_error cfg rest alert w1))
  /\ (forall alert u,
      post_receive plugin alert (Some cfg) w = (Raise e, w1) ->
      post_receive_loop raise_on_error false cfg (plugin :: rest) alert u w
      = if raise_on_error then
          (Raise (mkExc ApiError (plugin_error_message "post-receive" plugin e)), w1,
           [EvHook (name plugin) PostReceive Canonical])
        else
          prepend [EvHook (name plugin) PostReceive Canonical;
                   EvLog (plugin_error_message "post-receive" plugin e)]
                  (post_receive_loop raise_on_error false cfg rest alert u w1))
  /\ (forall alert status text u,
      is_suppressed alert = false ->
      status_change plugin alert status text (Some cfg) w = (Raise e, w1) ->
      status_loop raise_on_error cfg (plugin :: rest) (alert, status, text, u) w
      = if raise_on_error then
          (Raise (mkExc ApiError (plugin_error_message "status" plugin e)), w1,
           [EvHook (name plugin) StatusChange Canonical])
        else
          prepend [EvHook (name plugin) StatusChange Canonical;
                   EvLog (plugin_error_message "status" plugin e)]
                  (status_loop raise_on_error cfg rest (alert, status, text, u) w1)).
Proof.
  intros Hn. destruct (NotImplementedError_is_generic e Hn) as [HT Hc].
  destruct (outside_domain e Hc) as (Hpre & Hpost & Hact & Hnote & Hra).
  repeat match goal with |- _ /\ _ => split end; intros.
  - now apply action_unsupported with (e := e).
  - now apply note_unsupported with (e := e).
  - now apply delete_unsupported with (e := e).
  - now apply pre_receive_fault.
  - now apply post_receive_fault.
  - now apply status_fault.
Qed.

Lemma hook_calls_app t1 t2 : hook_calls (t1 ++ t2) = hook_calls t1 ++ hook_calls t2.
Proof.
  induction t1 as [|ev t1 IH]; [reflexivity|].
  destruct ev; cbn; now rewrite ?IH.
Qed.

Lemma hook_calls_bind A B (m : M W A) (f : A -> M W B) w :
  (forall a w', hook_calls (trace_of (f a w')) = []) ->
  hook_calls (trace_of (bind m f w)) = hook_calls (trace_of (m w)).
Proof.
  intros H. unfold bind. destruct (m w) as [[[a|e] w1] t1]; [|reflexivity].
  specialize (H a w1). destruct (f a w1) as [[r w2] t2].
  unfold trace_of in *. cbn in *. now rewrite hook_calls_app, H, app_nil_r.
Qed.

Lemma hook_calls_try_call A n hook (f : Ext W A) (K : Exc -> M W A) w :
  (forall e w', hook_calls (trace_of (K e w')) = []) ->
  hook_calls (trace_of (try_except (call (EvHook n hook Canonical) f) K w))
  = [(n, Canonical)].
Proof.
  intros H. unfold try_except, call. destruct (f w) as [[a|e] w1]; [reflexivity|].
  specialize (H e w1). destruct (K e w1) as [[r w2] t2].
  unfold trace_of in *. cbn in *. now rewrite H.
Qed.

(** The clauses after the retry, and those of the loops without one,
    invoke no hook. *)
Ltac silent_clause :=
  intros; cbv beta delta [pre_receive_clauses post_receive_clauses status_clauses
                          action_clauses note_clauses delete_clauses];
  repeat match goal with
         | |- context [if ?b then _ else _] => destruct b
         end; reflexivity.

(** C8 (amended).  Only the pre-receive, post-receive and status hooks
    are called in two shapes: first with config, and without it exactly
    when the call with config raised a TypeError, of whatever origin;
    any other outcome of the first call stands and the hook is not
    called again.  The action, note and delete hooks are called once,
    with config, and never again, a TypeError included. *)
Theorem retry_exactly_on_TypeError cfg (plugin : Plugin W) w :
  (forall alert,
      is_suppressed alert = false ->
      hook_calls (trace_of (pre_receive_loop raise_on_error cfg [plugin] alert w))
      = (name plugin, Canonical)
        :: (if raised_TypeError (pre_receive plugin alert (Some cfg) w)
            then [(name plugin, Reduced)] else []))
  /\ (forall alert u,
      hook_calls (trace_of (post_receive_loop raise_on_error false cfg [plugin] alert u w))
      = (name plugin, Canonical)
        :: (if raised_TypeError (post_receive plugin alert (Some cfg) w)
            then [(name plugin, Reduced)] else []))
  /\ (forall alert status text u,
      is_suppressed alert = false ->
      hook_calls (trace_of (status_loop raise_on_error cfg [plugin]
                              (alert, status, text, u) w))
      = (name plugin, Canonical)
        :: (if raised_TypeError (status_change plugin alert status text (Some cfg) w)
            then [(name plugin, Reduced)] else []))
  /\ (forall alert action text timeout u,
      is_suppressed alert = false ->
      hook_calls (trace_of (action_loop raise_on_error cfg [plugin]
                              (alert, action, text, timeout, u) w))
      = [(name plugin, Canonical)])
  /\ (forall alert text u,
      hook_calls (trace_of (note_loop raise_on_error cfg [plugin] (alert, text, u) w))
      = [(name plugin, Canonical)])
  /\ (forall alert,
      hook_calls (trace_of (delete_loop raise_on_error cfg [plugin] alert true w))
      = [(name plugin, Canonical)]).
Proof.
  repeat match goal with |- _ /\ _ => split end.
  - intros alert Hs. rewrite pre_receive_loop_cons by assumption.
    rewrite hook_calls_bind by (intros [a|] w'; reflexivity).
    apply with_retry_calls. silent_clause.
  - intros alert u. rewrite post_receive_loop_cons.
    rewrite hook_calls_bind by (intros [a|] w'; reflexivity).
    apply with_retry_calls. silent_clause.
  - intros alert status text u Hs. rewrite status_loop_cons by assumption.
    rewrite hook_calls_bind by (intros o w'; reflexivity).
    apply with_retry_calls. silent_clause.
  - intros alert action text timeout u Hs. rewrite action_loop_cons by assumption.
    rewrite hook_calls_bind by (intros o w'; reflexivity).
    apply hook_calls_try_call. silent_clause.
  - intros alert text u. rewrite note_loop_cons.
    rewrite hook_calls_bind by (intros o w'; reflexivity).
    apply hook_calls_try_call. silent_clause.
  - intros alert. rewrite delete_loop_cons.
    rewrite hook_calls_bind by (intros o w'; reflexivity).
    apply hook_calls_try_call. silent_clause.
Qed.

(** C9.  In the action pipeline, with the running timeout set: when a
    hook returns a 3-tuple (alert, action, text), the loop goes on with
    these three replaced, the mutated flag set and the timeout that
    entered the call; when it returns a 4-tuple, all four running fields
    are replaced.  For a one-plugin chain the pipeline therefore returns
    the timeout it was called with after a 3-tuple. *)
Theorem action_tuple_arity cfg (plugin : Plugin W) rest alert action text t u w :
  is_suppressed alert = false ->
  (forall a' action' text' w1,
      take_action plugin alert action text (Some t) (Some cfg) w
      = (Ok (ActTuple3 a' action' text'), w1) ->
      action_loop raise_on_error cfg (plugin :: rest) (alert, action, text, Some t, u) w
      = prepend [EvHook (name plugin) TakeAction Canonical]
          (action_loop raise_on_error cfg rest (a', action', text', Some t, true) w1))
  /\ (forall a' action' text' timeout' w1,
      take_action plugin alert action text (Some t) (Some cfg) w
      = (Ok (ActTuple4 a' action' text' timeout'), w1) ->
      action_loop raise_on_error cfg (plugin :: rest) (alert, action, text, Some t, u) w
      = prepend [EvHook (name plugin) TakeAction Canonical]
          (action_loop raise_on_error cfg rest (a', action', text', timeout', true) w1))
  /\ (forall w0 a' action' text' w1 w2 attrs w3,
      routing alert w0 = (Ok ([plugin], cfg), w) ->
      take_action plugin alert action text (Some t) (Some cfg) w
      = (Ok (ActTuple3 a' action' text'), w1) ->
      update_tags db a' (tags a') w1 = (Ok tt, w2) ->
      update_attributes db a' (attributes a') w2 = (Ok attrs, w3) ->
      result_of (process_action routing db raise_on_error alert action text (Some t) w0)
      = Ok (set_attributes a' attrs, action', text', Some t)).
Proof.
  intros Hs. repeat match goal with |- _ /\ _ => split end.
  - intros a' action' text' w1 Hh. now erewrite action_returned by eassumption.
  - intros a' action' text' timeout' w1 Hh. now erewrite action_returned by eassumption.
  - intros w0 a' action' text' w1 w2 attrs w3 Hr Hh Htags Hattrs.
    unfold process_action.
    erewrite bind_ok by (apply call_run; eassumption). cbn beta iota.
    erewrite bind_ok by (erewrite action_returned by eassumption; reflexivity).
    cbn beta iota delta [merge_action].
    erewrite bind_ok by (apply call_run; eassumption).
    erewrite bind_ok by (apply call_run; eassumption).
    reflexivity.
Qed.

(** C10.  When the mutated flag is set at loop exit and the two resync
    calls return, the note pipeline returns the alert of the loop as it
    is, with the attributes it had: what update_attributes returned is
    dropped.  The receive, action and status pipelines return that
    alert with its attributes field replaced by the attributes
    update_attributes returned, the other fields as they were. *)
Theorem resync_result_is_kept_except_for_notes alert w ps cfg w0 a1 w1 t1 w2 attrs w3 :
  routing alert w = (Ok (ps, cfg), w0) ->
  update_tags db a1 (tags a1) w1 = (Ok tt, w2) ->
  update_attributes db a1 (attributes a1) w2 = (Ok attrs, w3) ->
  let resync := [EvUpdateTags a1 (tags a1); EvUpdateAttributes a1 (attributes a1)] in
  let resynced := mkAlert (alert_id a1) (is_suppressed a1) (tags a1) attrs in
  (forall text text1,
      note_loop raise_on_error cfg ps (alert, text, false) w0 = (Ok (a1, text1, true), w1, t1) ->
      process_note routing db raise_on_error alert text w
      = (Ok (a1, text1), w3, EvRouting alert :: t1 ++ resync))
  /\ (forall action text timeout action1 text1 timeout1,
      action_loop raise_on_error cfg ps (alert, action, text, timeout, false) w0
      = (Ok (a1, action1, text1, timeout1, true), w1, t1) ->
      process_action routing db raise_on_error alert action text timeout w
      = (Ok (resynced, action1, text1, timeout1), w3, EvRouting alert :: t1 ++ resync)
      /\ attributes resynced = attrs)
  /\ (forall status text status1 text1,
      status_loop raise_on_error cfg ps (alert, status, text, false) w0
      = (Ok (a1, status1, text1, true), w1, t1) ->
      process_status routing db raise_on_error alert status text w
      = (Ok (resynced, status1, text1), w3, EvRouting alert :: t1 ++ resync)
      /\ attributes resynced = attrs)
  /\ (forall a0 skip wa ta a2 wb tb ps' cfg' wc,
      pre_receive_loop raise_on_error cfg ps alert w0 = (Ok (a0, skip), wa, ta) ->
      resolve_lifecycle db a0 wa = (Ok a2, wb, tb) ->
      routing a2 wb = (Ok (ps', cfg'), wc) ->
      post_receive_loop raise_on_error skip cfg' ps' a2 false wc = (Ok (a1, true), w1, t1) ->
      process_alert routing db raise_on_error alert w
      = (Ok resynced, w3, EvRouting alert :: ta ++ tb ++ EvRouting a2 :: t1 ++ resync)
      /\ attributes resynced = attrs).
Proof.
  intros Hr Htags Hattrs resync resynced.
  split; [|split; [|split]].
  - intros text text1 Hloop. unfold process_note.
    erewrite bind_ok by (apply call_run; eassumption). cbn beta iota.
    erewrite bind_ok by eassumption. cbn beta iota.
    erewrite bind_ok by (apply call_run; eassumption).
    erewrite bind_ok by (apply call_run; eassumption).
    reflexivity.
  - intros action text timeout action1 text1 timeout1 Hloop.
    split; [|reflexivity]. unfold process_action.
    erewrite bind_ok by (apply call_run; eassumption). cbn beta iota.
    erewrite bind_ok by eassumption. cbn beta iota.
    erewrite bind_ok by (apply call_run; eassumption).
    erewrite bind_ok by (apply call_run; eassumption).
    reflexivity.
  - intros status text status1 text1 Hloop.
    split; [|reflexivity]. unfold process_status.
    erewrite bind_ok by (apply call_run; eassumption). cbn beta iota.
    erewrite bind_ok by eassumption. cbn beta iota.
    erewrite bind_ok by (apply call_run; eassumption).
    erewrite bind_ok by (apply call_run; eassumption).
    reflexivity.
  - intros a0 skip wa ta a2 wb tb ps' cfg' wc Hpre Hres Hr2 Hpost.
    split; [|reflexivity]. unfold process_alert.
    erewrite bind_ok by (apply call_run; eassumption). cbn beta iota.
    erewrite bind_ok by eassumption. cbn beta iota.
    erewrite bind_ok by eassumption.
    erewrite bind_ok by (apply call_run; eassumption). cbn beta iota.
    erewrite bind_ok by eassumption. cbn beta iota.
    erewrite bind_ok by (apply call_run; eassumption).
    erewrite bind_ok by (apply call_run; eassumption).
    cbn. rewrite <- ?app_assoc. reflexivity.
Qed.

End Claims.

(** * Runs on the concrete collaborators *)

(** C1, instance: a suppressed alert, the chain of one tagging plugin. *)
Lemma suppressed_at_entry_witness :
  is_suppressed suppressed_alert = true
  /\ process_action (route_all [tagger "t"]) (demo_db None) true
       suppressed_alert "ack" "on it" (Some 5%Z) tt
     = (Ok (suppressed_alert, "ack", "on it", Some 5%Z), tt, [EvRouting suppressed_alert])
  /\ process_status (route_all [tagger "t"]) (demo_db None) true
       suppressed_alert "open" "again" tt
     = (Ok (suppressed_alert, "open", "again"), tt, [EvRouting suppressed_alert])
  /\ Forall (fun ev => is_hook_event ev = false /\ is_resync_event ev = false)
       (trace_of (process_alert (route_all [tagger "t"]) (demo_db None) true
                    suppressed_alert tt)).
Proof.
  pose (H := suppressed_at_entry_runs_no_plugin
               (route_all [tagger "t"]) (demo_db None) true suppressed_alert tt eq_refl).
  split; [reflexivity|]. split; [|split].
  - exact (proj2 (proj1 H _ _ _ "ack" "on it" (Some 5%Z) eq_refl)).
  - exact (proj2 (proj1 (proj2 H) _ _ _ "open" "again" eq_refl)).
  - exact (proj2 (proj2 (proj2 (proj2 (proj2 H) _ _ _ _ eq_refl)))).
Defined.

(** C1 as stated fails in the receive pipeline.  With the chain of one
    tagging plugin no hook runs, yet the alert returned is the record
    create() made, not the input alert.  With a router that gives a new
    alert no plugin and a stored one the tagging plugin, the first loop
    body never runs, skip_plugins stays false, and the post-receive hook
    is invoked on the suppressed alert and followed by the resync. *)
Lemma suppressed_receive_counterexample :
  is_suppressed suppressed_alert = true
  /\ (exists a t,
        process_alert (route_all [tagger "t"]) (demo_db None) true suppressed_alert tt
        = (Ok a, tt, t)
        /\ a <> suppressed_alert)
  /\ (let t := trace_of (process_alert (route_stored [tagger "t"]) (demo_db None) true
                           suppressed_alert tt) in
      hook_calls t = [("t", Canonical)] /\ existsb is_resync_event t = true).
Proof.
  split; [reflexivity|]. split.
  - eexists. eexists. split; [vm_compute; reflexivity|]. discriminate.
  - split; vm_compute; reflexivity.
Qed.

(** C2, instance: three plugins; the second denies, the third does
    not implement the hook and is never asked. *)
Lemma delete_verdict_witness :
  invoked_verdicts demo_config stored_alert
    [tagger "first"; silent "deny"; base_plugin "late"] tt
  = Some ([true; false], tt)
  /\ process_delete (route_all [tagger "first"; silent "deny"; base_plugin "late"])
       (demo_db None) true stored_alert tt
     = (Ok false, tt,
        EvRouting stored_alert
        :: [EvHook "first" Delete Canonical] ++ [EvHook "deny" Delete Canonical])
  /\ (In (EvDelete stored_alert)
         (trace_of (process_delete (route_all [tagger "first"; silent "deny";
                                               base_plugin "late"])
                      (demo_db None) true stored_alert tt))
      <-> forallb (fun v => v) [true; false] = true).
Proof.
  pose (H := delete_verdict_is_conjunction
               (route_all [tagger "first"; silent "deny"; base_plugin "late"])
               (demo_db None) true stored_alert tt eq_refl).
  split; [reflexivity|]. split.
  - exact (proj1 H [tagger "first"] (silent "deny") [base_plugin "late"] tt
             [EvHook "first" Delete Canonical] tt eq_refl eq_refl eq_refl).
  - exact (proj2 (proj2 (proj2 H [true; false] tt eq_refl))).
Defined.

(** C2 as stated fails: after the first plugin denied, the delete hook
    of the second, which would allow, is not invoked. *)
Lemma delete_short_circuit_counterexample :
  process_delete (route_all [silent "deny"; tagger "allow"]) (demo_db None) true
    stored_alert tt
  = (Ok false, tt, [EvRouting stored_alert; EvHook "deny" Delete Canonical])
  /\ delete (tagger "allow") stored_alert (Some demo_config) tt = (Ok true, tt).
Proof. split; reflexivity. Qed.



(** C4, instance: a KeyError from the first of two plugins, in the
    pre-receive phase under the lenient policy and in the action
    pipeline under the strict one. *)
Lemma generic_fault_witness :
  is_control_signal (mkExc KeyError "host") = false
  /\ pre_receive_loop false demo_config [failing "bad" KeyError "host"; tagger "t"]
       new_alert tt
     = prepend [EvHook "bad" PreReceive Canonical;
                EvLog "Error while running pre-receive plugin 'bad': host"]
         (pre_receive_loop false demo_config [tagger "t"] new_alert tt)
  /\ action_loop true demo_config [failing "bad" KeyError "host"; tagger "t"]
       (stored_alert, "ack", "on it", None, false) tt
     = (Raise (mkExc ApiError "Error while running action plugin 'bad': host"), tt,
        [EvHook "bad" TakeAction Canonical]).
Proof.
  split; [reflexivity|]. split.
  - exact (proj1 (generic_fault_follows_policy false demo_config
                    (failing "bad" KeyError "host") [tagger "t"]
                    (mkExc KeyError "host") tt tt eq_refl)
             new_alert eq_refl eq_refl eq_refl).
  - exact (proj1 (proj2 (proj2
             (generic_fault_follows_policy true demo_config
                (failing "bad" KeyError "host") [tagger "t"]
                (mkExc KeyError "host") tt tt eq_refl)))
             stored_alert "ack" "on it" None false eq_refl eq_refl eq_refl).
Defined.

(** C4 as stated fails in the receive pipeline for a TypeError, which is
    neither a control signal nor NotImplementedError: the hook is called
    again without config, and what that call raises leaves the pipeline
    as it is.  Under the lenient policy nothing is logged and the next
    plugin does not run; under the strict policy the error raised is
    the plugin's TypeError, not an error naming plugin and stage. *)
Lemma generic_fault_counterexample :
  is_control_signal (mkExc TypeError "can only concatenate str") = false
  /\ isinstance (mkExc TypeError "can only concatenate str") [NotImplementedError] = false
  /\ process_alert (route_all [failing "bad" TypeError "can only concatenate str"; tagger "t"])
       (demo_db None) false new_alert tt
     = (Raise (mkExc TypeError "can only concatenate str"), tt,
        [EvRouting new_alert; EvHook "bad" PreReceive Canonical;
         EvHook "bad" PreReceive Reduced])
  /\ process_alert (route_all [failing "bad" TypeError "can only concatenate str"; tagger "t"])
       (demo_db None) true new_alert tt
     = (Raise (mkExc TypeError "can only concatenate str"), tt,
        [EvRouting new_alert; EvHook "bad" PreReceive Canonical;
         EvHook "bad" PreReceive Reduced]).
Proof. repeat split; reflexivity. Qed.

(** C5, instance: the alert is known to the model as a duplicate. *)
Lemma lifecycle_resolution_witness :
  resolve_lifecycle (demo_db (Some stored_alert)) new_alert tt
  = (Ok stored_alert, tt, [EvIsDuplicate new_alert; EvDeduplicate new_alert stored_alert])
  /\ Forall (fun ev => is_create_or_update ev = false)
       (trace_of (process_alert (route_all [tagger "t"]) (demo_db (Some stored_alert)) true
                    new_alert tt)).
Proof.
  pose (H := lifecycle_resolution_dispatch (route_all [tagger "t"])
               (demo_db (Some stored_alert)) true new_alert tt).
  split.
  - destruct (proj1 H stored_alert tt eq_refl) as [r [w2 [Hd Hrun]]].
    rewrite Hrun. cbv in Hd. injection Hd as <- <-. reflexivity.
  - exact (proj2 (proj2 (proj2 (proj2 (proj2 (proj2 (proj2 H)))))
                    _ _ _ _ _ _ _ _ _ eq_refl eq_refl eq_refl)).
Defined.

(** C6, instance: a plugin whose hooks return nothing, first of two. *)
Lemma falsy_return_witness :
  pre_receive_loop false demo_config [silent "s"; tagger "t"] new_alert tt
  = (Raise (mkExc SyntaxError "Plugin 's' pre-receive hook did not return modified alert"),
     tt, [EvHook "s" PreReceive Canonical])
  /\ action_loop true demo_config [silent "s"; tagger "t"]
       (stored_alert, "ack", "on it", None, false) tt
     = prepend [EvHook "s" TakeAction Canonical]
         (action_loop true demo_config [tagger "t"]
            (stored_alert, "ack", "on it", None, false) tt)
  /\ process_action (route_all [empty_handed "e"]) (demo_db None) true
       stored_alert "ack" "on it" None tt
     = (Ok (mkAlert "7" false ["prod"] [("stored", "yes"); ("region", "eu")],
            "ack", "on it", None), tt,
        [EvRouting stored_alert; EvHook "e" TakeAction Canonical;
         EvUpdateTags stored_alert ["prod"];
         EvUpdateAttributes stored_alert [("region", "eu")]]).
Proof.
  split; [|split];
    [| | exact (proj2 (proj2 (proj2 (proj2 (proj2 (proj2
             (falsy_return_is_fatal_only_before_receive (route_all [empty_handed "e"])
                (demo_db None) true demo_config (empty_handed "e") [] tt tt))))))
             tt stored_alert "ack" "on it" None tt _ tt
             eq_refl eq_refl eq_refl eq_refl eq_refl)].
  - exact (proj1 (falsy_return_is_fatal_only_before_receive
                    (route_all [silent "s"; tagger "t"]) (demo_db None) false demo_config
                    (silent "s") [tagger "t"] tt tt)
             new_alert _ eq_refl eq_refl).
  - exact (proj1 (proj2 (proj2
             (falsy_return_is_fatal_only_before_receive
                (route_all [silent "s"; tagger "t"]) (demo_db None) true demo_config
                (silent "s") [tagger "t"] tt tt)))
             stored_alert "ack" "on it" None false eq_refl eq_refl).
Defined.

(** C6 as stated fails in the action pipeline: the first plugin returns
    None, no error is raised under the strict policy, the second plugin
    runs and the pipeline returns its result. *)
Lemma falsy_action_return_counterexample :
  take_action (silent "s") stored_alert "ack" "on it" None (Some demo_config) tt
  = (Ok ActNone, tt)
  /\ process_action (route_all [silent "s"; tagger "t"]) (demo_db None) true
       stored_alert "ack" "on it" None tt
     = (Ok (set_attributes (add_tag "t" stored_alert)
              [("stored", "yes"); ("region", "eu")],
            "ack", "on it", None),
        tt,
        [EvRouting stored_alert; EvHook "s" TakeAction Canonical;
         EvHook "t" TakeAction Canonical;
         EvUpdateTags (add_tag "t" stored_alert) ["t"; "prod"];
         EvUpdateAttributes (add_tag "t" stored_alert) [("region", "eu")]]).
Proof. split; reflexivity. Qed.

(** C7, instance: a plugin with the default hooks, first of two, under
    the strict policy. *)
Lemma unsupported_operation_witness :
  isinstance (mkExc NotImplementedError "delete") [NotImplementedError] = true
  /\ delete_loop true demo_config [base_plugin "b"; tagger "t"] stored_alert true tt
     = prepend [EvHook "b" Delete Canonical]
         (delete_loop true demo_config [tagger "t"] stored_alert true tt)
  /\ pre_receive_loop true demo_config
       [failing "f" NotImplementedError "delete"; tagger "t"] new_alert tt
     = (Raise (mkExc RuntimeError "Error while running pre-receive plugin 'f': delete"),
        tt, [EvHook "f" PreReceive Canonical]).
Proof.
  split; [reflexivity|]. split.
  - exact (proj1 (proj2 (proj2
             (unsupported_operation_is_skipped true demo_config (base_plugin "b")
                [tagger "t"] (mkExc NotImplementedError "delete") tt tt eq_refl)))
             stored_alert eq_refl).
  - exact (proj1 (proj2 (proj2 (proj2
             (unsupported_operation_is_skipped true demo_config
                (failing "f" NotImplementedError "delete")
                [tagger "t"] (mkExc NotImplementedError "delete") tt tt eq_refl))))
             new_alert eq_refl eq_refl).
Defined.

(** C7 as stated fails for the delete pipeline: the hook raises
    NotImplementedError, and under the strict policy the pipeline
    neither raises nor logs; the verdict stays true and the alert is
    deleted. *)
Lemma delete_unsupported_counterexample :
  delete (base_plugin "b") stored_alert (Some demo_config) tt
  = (Raise (mkExc NotImplementedError "delete"), tt)
  /\ process_delete (route_all [base_plugin "b"]) (demo_db None) true stored_alert tt
     = (Ok true, tt,
        [EvRouting stored_alert; EvHook "b" Delete Canonical; EvDelete stored_alert]).
Proof. split; reflexivity. Qed.

(** C8, instance: a plugin written before config was passed. *)
Lemma retry_witness :
  is_suppressed new_alert = false
  /\ hook_calls (trace_of (pre_receive_loop true demo_config
                             [legacy "old" (fun a => returns (Some a))] new_alert tt))
     = [("old", Canonical); ("old", Reduced)]
  /\ hook_calls (trace_of (action_loop true demo_config
                             [legacy "old" (fun a => returns (Some a))]
                             (new_alert, "ack", "on it", None, false) tt))
     = [("old", Canonical)].
Proof.
  pose (H := retry_exactly_on_TypeError true demo_config
               (legacy "old" (fun a => returns (Some a))) tt).
  split; [reflexivity|]. split.
  - exact (proj1 H new_alert eq_refl).
  - exact (proj1 (proj2 (proj2 (proj2 H))) new_alert "ack" "on it" None false eq_refl).
Defined.

(** C8 as stated fails in the action pipeline: the hook rejects the
    call with config by a TypeError and would accept the call without
    it, but it is called once; the TypeError is handled as a generic
    fault. *)
Lemma action_hook_not_retried_counterexample :
  take_action (legacy "old" (fun a => returns (Some a)))
    stored_alert "ack" "on it" None None tt
  = (Ok (ActAlert stored_alert), tt)
  /\ process_action (route_all [legacy "old" (fun a => returns (Some a))]) (demo_db None)
       true stored_alert "ack" "on it" None tt
     = (Raise (mkExc ApiError
          "Error while running action plugin 'old': got an unexpected keyword argument 'config'"),
        tt, [EvRouting stored_alert; EvHook "old" TakeAction Canonical]).
Proof. split; reflexivity. Qed.

(** C9, instance: the tagging plugin returns a 3-tuple; the timeout 300
    of the call is the one returned. *)
Lemma action_tuple_witness :
  is_suppressed stored_alert = false
  /\ action_loop true demo_config [tagger "t"; silent "s"]
       (stored_alert, "ack", "on it", Some 300%Z, false) tt
     = prepend [EvHook "t" TakeAction Canonical]
         (action_loop true demo_config [silent "s"]
            (add_tag "t" stored_alert, "ack", "on it", Some 300%Z, true) tt)
  /\ result_of (process_action (route_all [tagger "t"]) (demo_db None) true
                  stored_alert "ack" "on it" (Some 300%Z) tt)
     = Ok (set_attributes (add_tag "t" stored_alert) [("stored", "yes"); ("region", "eu")],
           "ack", "on it", Some 300%Z).
Proof.
  split; [reflexivity|]. split.
  - exact (proj1 (action_tuple_arity (route_all [tagger "t"]) (demo_db None) true
                    demo_config (tagger "t") [silent "s"] stored_alert "ack" "on it"
                    300%Z false tt eq_refl)
             _ _ _ _ eq_refl).
  - exact (proj2 (proj2 (action_tuple_arity (route_all [tagger "t"]) (demo_db None) true
                           demo_config (tagger "t") [] stored_alert "ack" "on it"
                           300%Z false tt eq_refl))
             tt _ _ _ _ _ _ _ eq_refl eq_refl eq_refl eq_refl).
Defined.

(** C10, instance: the model reports the stored attributes with a
    marker; the note pipeline returns the alert without it, the action
    pipeline with it. *)
Lemma resync_result_witness :
  process_note (route_all [tagger "t"]) (demo_db None) true stored_alert "seen" tt
  = (Ok (mkAlert "7" false ["t"; "prod"] [("region", "eu")], "seen"), tt,
     [EvRouting stored_alert; EvHook "t" TakeNote Canonical;
      EvUpdateTags (add_tag "t" stored_alert) ["t"; "prod"];
      EvUpdateAttributes (add_tag "t" stored_alert) [("region", "eu")]])
  /\ process_action (route_all [tagger "t"]) (demo_db None) true
       stored_alert "ack" "on it" None tt
     = (Ok (mkAlert "7" false ["t"; "prod"] [("stored", "yes"); ("region", "eu")],
            "ack", "on it", None), tt,
        [EvRouting stored_alert; EvHook "t" TakeAction Canonical;
         EvUpdateTags (add_tag "t" stored_alert) ["t"; "prod"];
         EvUpdateAttributes (add_tag "t" stored_alert) [("region", "eu")]])
  /\ update_attributes (demo_db None) (add_tag "t" stored_alert) [("region", "eu")] tt
     = (Ok [("stored", "yes"); ("region", "eu")], tt).
Proof.
  pose (H := resync_result_is_kept_except_for_notes
               (route_all [tagger "t"]) (demo_db None) true stored_alert tt
               (ps := [tagger "t"]) (cfg := demo_config) (w0 := tt)
               (add_tag "t" stored_alert) tt [EvHook "t" TakeNote Canonical]
               (w2 := tt) (attrs := [("stored", "yes"); ("region", "eu")]) (w3 := tt)
               eq_refl eq_refl eq_refl).
  pose (H' := resync_result_is_kept_except_for_notes
               (route_all [tagger "t"]) (demo_db None) true stored_alert tt
               (ps := [tagger "t"]) (cfg := demo_config) (w0 := tt)
               (add_tag "t" stored_alert) tt [EvHook "t" TakeAction Canonical]
               (w2 := tt) (attrs := [("stored", "yes"); ("region", "eu")]) (w3 := tt)
               eq_refl eq_refl eq_refl).
  split; [|split].
  - exact (proj1 H "seen" "seen" eq_refl).
  - exact (proj1 (proj1 (proj2 H') "ack" "on it" None "ack" "on it" None eq_refl)).
  - reflexivity.
Defined.

(** * Further properties *)

(** ** assign_customer *)

Section AssignCustomerFacts.

Variable Scope_admin : string.

Lemma contains_In x l : contains x l = true <-> In x l.
Proof.
  unfold contains. rewrite existsb_exists. split.
  - intros [y [Hy He]]. apply String.eqb_eq in He. now subst.
  - intros H. exists x. split; [assumption | apply String.eqb_refl].
Qed.

(** X1.  A caller who asks for a customer without holding the admin
    scope or the given permission, or who asks for none, is only ever
    assigned a customer of the request's own customer list. *)
Theorem assign_customer_confined g wanted permission c :
  (is_wanted wanted && privileged Scope_admin g permission)%bool = false ->
  assign_customer Scope_admin g wanted permission = Customer (Some c) ->
  In c (customers_of g).
Proof.
  unfold assign_customer, privileged, is_wanted, customers_of.
  destruct (g_customers g) as [cs|]; destruct wanted as [w|]; cbn [negb andb].
  all: try destruct (String.eqb w EmptyString); cbn [negb andb].
  all: try destruct (contains Scope_admin (g_scopes g) || contains permission (g_scopes g))%bool.
  all: try discriminate.
  all: intros _.
  all: try (destruct (contains w _) eqn:Hc; cbn [negb]; intros H; inversion H; subst;
            now apply contains_In).
  all: try (destruct cs as [|c0 [|c1 cs]]; cbn; intros H; inversion H; subst; now left).
  all: cbn; intros H; inversion H.
Qed.

(** X2.  assign_customer refuses exactly in two cases: a customer is
    asked for by a caller without the admin scope or the permission and
    is not among the request's customers; or none is asked for and the
    request has more than one customer.  Every refusal has code 400. *)
Theorem assign_customer_refuses_exactly g wanted permission :
  ((exists message code,
       assign_customer Scope_admin g wanted permission = Refused message code)
   <-> (is_wanted wanted = true
        /\ privileged Scope_admin g permission = false
        /\ (forall w, wanted = Some w -> contains w (customers_of g) = false))
       \/ (is_wanted wanted = false /\ 1 < List.length (customers_of g)))
  /\ (forall message code,
       assign_customer Scope_admin g wanted permission = Refused message code ->
       code = 400%Z).
Proof.
  unfold assign_customer, privileged, is_wanted, customers_of.
  set (cs := match g_customers g with Some cs => cs | None => [] end).
  assert (Hun : forall r : CustomerResult,
             r = match cs with
                 | [] => Customer None
                 | c :: _ =>
                     if Nat.ltb 1 (List.length cs)
                     then Refused "must define customer as more than one possibility" 400
                     else Customer (Some c)
                 end ->
             ((exists message code, r = Refused message code) <-> 1 < List.length cs)
             /\ (forall message code, r = Refused message code -> code = 400%Z)).
  { intros r ->. destruct cs as [|c0 [|c1 cs']]; cbn.
    - split; [split; [intros (m & c & H); discriminate H | intros H; inversion H]|].
      intros m c H; discriminate H.
    - split; [split; [intros (m & c & H); discriminate H
                     | intros H; inversion H as [|? H']; inversion H']|].
      intros m c H; discriminate H.
    - split; [split; [intros _; apply -> PeanoNat.Nat.succ_lt_mono;
                      apply PeanoNat.Nat.lt_0_succ
                     | intros _; eauto]|].
      intros m c H; now inversion H. }
  destruct wanted as [w|].
  - destruct (String.eqb w EmptyString) eqn:He; cbn [negb].
    + destruct (Hun _ eq_refl) as [Hiff H400]. split; [|exact H400].
      rewrite Hiff. split; [intros H; right; now split|].
      intros [[H _]|[_ H]]; [discriminate H | exact H].
    + destruct (contains Scope_admin (g_scopes g) || contains permission (g_scopes g))%bool.
      * split; [|intros m c H; discriminate H].
        split; [intros (m & c & H); discriminate H|].
        intros [(_ & H & _)|[H _]]; discriminate H.
      * destruct (contains w cs) eqn:Hc; cbn [negb].
        -- split; [|intros m c H; discriminate H].
           split; [intros (m & c & H); discriminate H|].
           intros [(_ & _ & H)|[H _]]; [|discriminate H].
           specialize (H w eq_refl). congruence.
        -- split; [|intros m c H; now inversion H].
           split; [|intros _; eauto].
           intros _. left. repeat split. intros w' H'. now inversion H'; subst.
  - destruct (Hun _ eq_refl) as [Hiff H400]. split; [|exact H400].
    rewrite Hiff. split; [intros H; right; now split|].
    intros [[H _]|[_ H]]; [discriminate H | exact H].
Qed.

(** X3.  When assign_customer returns, the customer is the one asked
    for if one was asked for; otherwise it is the request's only
    customer, and None exactly when the request has no customer. *)
Theorem assign_customer_returns g wanted permission r :
  assign_customer Scope_admin g wanted permission = Customer r ->
  (is_wanted wanted = true /\ r = wanted)
  \/ (is_wanted wanted = false
      /\ match r with
         | Some c => customers_of g = [c]
         | None => customers_of g = []
         end).
Proof.
  unfold assign_customer, is_wanted, customers_of.
  set (cs := match g_customers g with Some cs => cs | None => [] end).
  assert (Hun : match cs with
                | [] => Customer None
                | c :: _ =>
                    if Nat.ltb 1 (List.length cs)
                    then Refused "must define customer as more than one possibility" 400
                    else Customer (Some c)
                end = Customer r ->
                match r with Some c => cs = [c] | None => cs = [] end).
  { destruct cs as [|c0 [|c1 cs']]; cbn; intros H; inversion H; reflexivity. }
  destruct wanted as [w|]; [|intros H; right; split; [reflexivity | now apply Hun]].
  destruct (String.eqb w EmptyString); cbn [negb];
    [intros H; right; split; [reflexivity | now apply Hun]|].
  destruct (contains Scope_admin (g_scopes g) || contains permission (g_scopes g))%bool;
    [intros H; inversion H; now left|].
  destruct (contains w cs); cbn [negb]; intros H; inversion H. now left.
Qed.

End AssignCustomerFacts.

(** ** Invariants of the loops *)

Section LoopInvariants.

Context {W : Type}.
Variable raise_on_error : bool.
Variable cfg : Config.

(** A property of the running state that every merge keeps is kept by
    the whole loop. *)
Lemma action_loop_invariant (P : ActionState -> Prop) :
  (forall o st, P st -> P (merge_action o st)) ->
  forall (ps : list (Plugin W)) st w st' w' t,
    P st ->
    action_loop raise_on_error cfg ps st w = (Ok st', w', t) ->
    P st'.
Proof.
  intros Hm ps. induction ps as [|plugin rest IH]; intros st w st' w' t HP Hrun.
  - cbn in Hrun. now inversion Hrun; subst.
  - destruct st as [[[[alert action] text] timeout] u].
    destruct (is_suppressed alert) eqn:Hs.
    + rewrite action_loop_suppressed in Hrun by assumption. now inversion Hrun; subst.
    + rewrite action_loop_cons in Hrun by assumption. unfold bind in Hrun.
      destruct (try_except _ _ w) as [[[o|e] w1] t1]; [|discriminate Hrun].
      destruct (action_loop raise_on_error cfg rest _ w1) as [[r w2] t2] eqn:Hl.
      cbn in Hrun. inversion Hrun; subst.
      eapply IH; [|exact Hl]. now apply Hm.
Qed.

Lemma note_loop_invariant (P : NoteState -> Prop) :
  (forall o st, P st -> P (merge_note o st)) ->
  forall (ps : list (Plugin W)) st w st' w' t,
    P st ->
    note_loop raise_on_error cfg ps st w = (Ok st', w', t) ->
    P st'.
Proof.
  intros Hm ps. induction ps as [|plugin rest IH]; intros st w st' w' t HP Hrun.
  - cbn in Hrun. now inversion Hrun; subst.
  - destruct st as [[alert text] u].
    rewrite note_loop_cons in Hrun. unfold bind in Hrun.
    destruct (try_except _ _ w) as [[[o|e] w1] t1]; [|discriminate Hrun].
    destruct (note_loop raise_on_error cfg rest _ w1) as [[r w2] t2] eqn:Hl.
    cbn in Hrun. inversion Hrun; subst.
    eapply IH; [|exact Hl]. now apply Hm.
Qed.

Lemma status_loop_invariant (P : StatusState -> Prop) :
  (forall o st, P st -> P (merge_status o st)) ->
  forall (ps : list (Plugin W)) st w st' w' t,
    P st ->
    status_loop raise_on_error cfg ps st w = (Ok st', w', t) ->
    P st'.
Proof.
  intros Hm ps. induction ps as [|plugin rest IH]; intros st w st' w' t HP Hrun.
  - cbn in Hrun. now inversion Hrun; subst.
  - destruct st as [[[alert status] text] u].
    destruct (is_suppressed alert) eqn:Hs.
    + rewrite status_loop_suppressed in Hrun by assumption. now inversion Hrun; subst.
    + rewrite status_loop_cons in Hrun by assumption. unfold bind in Hrun.
      destruct (with_retry _ _ _ _ _ w) as [[[o|e] w1] t1]; [|discriminate Hrun].
      destruct (status_loop raise_on_error cfg rest _ w1) as [[r w2] t2] eqn:Hl.
      cbn in Hrun. inversion Hrun; subst.
      eapply IH; [|exact Hl]. now apply Hm.
Qed.

(** For the post-receive loop the state is the alert and the flag; a
    hook result replaces the alert and sets the flag, or changes
    nothing. *)
Lemma post_receive_loop_invariant (P : Alert * bool -> Prop) skip :
  (forall a a' u, P (a, u) -> P (a', true)) ->
  forall (ps : list (Plugin W)) alert u w st' w' t,
    P (alert, u) ->
    post_receive_loop raise_on_error skip cfg ps alert u w = (Ok st', w', t) ->
    P st'.
Proof.
  intros Hm ps. induction ps as [|plugin rest IH]; intros alert u w st' w' t HP Hrun.
  - cbn in Hrun. now inversion Hrun; subst.
  - destruct skip.
    + rewrite post_receive_loop_skipped in Hrun. now inversion Hrun; subst.
    + rewrite post_receive_loop_cons in Hrun. unfold bind in Hrun.
      destruct (with_retry _ _ _ _ _ w) as [[[o|e] w1] t1]; [|discriminate Hrun].
      destruct o as [a'|].
      * destruct (post_receive_loop raise_on_error false cfg rest a' true w1)
          as [[r w2] t2] eqn:Hl.
        cbn in Hrun. inversion Hrun; subst.
        eapply IH; [|exact Hl]. eapply Hm; eassumption.
      * destruct (post_receive_loop raise_on_error false cfg rest alert u w1)
          as [[r w2] t2] eqn:Hl.
        cbn in Hrun. inversion Hrun; subst.
        eapply IH; [|exact Hl]. assumption.
Qed.

End LoopInvariants.

Section FurtherProperties.

Context {W : Type}.
Variable routing : Alert -> Ext W (list (Plugin W) * Config).
Variable db : AlertModel W.
Variable raise_on_error : bool.

(** X4.  The mutated flag persists once set: a post-receive, action,
    note or status loop that is entered with alert_was_updated true and
    returns, returns it true, whatever the plugins of the chain do. *)
Theorem mutated_flag_persists cfg (ps : list (Plugin W)) w w' t :
  (forall skip alert a' u',
      post_receive_loop raise_on_error skip cfg ps alert true w = (Ok (a', u'), w', t) ->
      u' = true)
  /\ (forall alert action text timeout a' action' text' timeout' u',
      action_loop raise_on_error cfg ps (alert, action, text, timeout, true) w
      = (Ok (a', action', text', timeout', u'), w', t) ->
      u' = true)
  /\ (forall alert text a' text' u',
      note_loop raise_on_error cfg ps (alert, text, true) w = (Ok (a', text', u'), w', t) ->
      u' = true)
  /\ (forall alert status text a' status' text' u',
      status_loop raise_on_error cfg ps (alert, status, text, true) w
      = (Ok (a', status', text', u'), w', t) ->
      u' = true).
Proof.
  repeat match goal with |- _ /\ _ => split end.
  - intros skip alert a' u' Hrun.
    exact (post_receive_loop_invariant raise_on_error cfg (fun st => snd st = true) skip
             (fun _ _ _ _ => eq_refl) ps alert true w eq_refl Hrun).
  - intros alert action text timeout a' action' text' timeout' u' Hrun.
    assert (Hm : forall o (st : ActionState), snd st = true -> snd (merge_action o st) = true).
    { intros o [[[[a b] c] d] u]; cbn; intros ->; now destruct o. }
    exact (action_loop_invariant raise_on_error cfg (fun st => snd st = true) Hm
             ps (alert, action, text, timeout, true) w eq_refl Hrun).
  - intros alert text a' text' u' Hrun.
    assert (Hm : forall o (st : NoteState), snd st = true -> snd (merge_note o st) = true).
    { intros o [[a b] u]; cbn; intros ->; now destruct o. }
    exact (note_loop_invariant raise_on_error cfg (fun st => snd st = true) Hm
             ps (alert, text, true) w eq_refl Hrun).
  - intros alert status text a' status' text' u' Hrun.
    assert (Hm : forall o (st : StatusState), snd st = true -> snd (merge_status o st) = true).
    { intros o [[[a b] c] u]; cbn; intros ->; now destruct o. }
    exact (status_loop_invariant raise_on_error cfg (fun st => snd st = true) Hm
             ps (alert, status, text, true) w eq_refl Hrun).
Qed.

Lemma no_resync_after_cons ev (t1 t2 : list Event) :
  is_resync_event ev = true ->
  Forall (fun ev => is_resync_event ev = false) (t1 ++ ev :: t2) -> False.
Proof.
  intros He H. apply Forall_app in H. destruct H as [_ H].
  inversion H; subst. congruence.
Qed.

(** X5.  When the action, note or status pipeline returns and its run
    made no resync call, it returns exactly the arguments it was called
    with: a plugin result that replaces a running field always sets the
    mutated flag and so leads to the resync. *)
Theorem no_resync_means_unchanged alert w w' t :
  Forall (fun ev => is_resync_event ev = false) t ->
  (forall action text timeout r,
      process_action routing db raise_on_error alert action text timeout w = (Ok r, w', t) ->
      r = (alert, action, text, timeout))
  /\ (forall text r,
      process_note routing db raise_on_error alert text w = (Ok r, w', t) ->
      r = (alert, text))
  /\ (forall status text r,
      process_status routing db raise_on_error alert status text w = (Ok r, w', t) ->
      r = (alert, status, text)).
Proof.
  intros Hno. repeat match goal with |- _ /\ _ => split end.
  - intros action text timeout r. unfold process_action, bind at 1, call.
    destruct (routing alert w) as [[[ps cfg]|e] w0]; [|discriminate].
    unfold bind at 1.
    destruct (action_loop raise_on_error cfg ps (alert, action, text, timeout, false) w0)
      as [[[[[[[a' action'] text'] timeout'] u']|e] w1] t1] eqn:Hl; [|discriminate].
    destruct u'.
    + unfold bind, call.
      destruct (update_tags db a' (tags a') w1) as [[[]|e] w2]; [|discriminate].
      destruct (update_attributes db a' (attributes a') w2) as [[attrs|e] w3];
        [|discriminate].
      cbn. intros H. inversion H; subst. exfalso.
      inversion Hno as [|? ? _ Hno']; subst.
      eapply no_resync_after_cons; [|exact Hno']. reflexivity.
    + cbn. intros H. inversion H; subst.
      assert (Hm : forall o (st : ActionState),
                 snd st = true \/ st = (alert, action, text, timeout, false) ->
                 snd (merge_action o st) = true \/ merge_action o st = (alert, action, text, timeout, false)).
      { intros o st [Ht|He].
        - left. destruct st as [[[[a b] c] d] u]. cbn in Ht. subst. now destruct o.
        - subst st. destruct o; cbn; auto. }
      destruct (action_loop_invariant raise_on_error cfg _ Hm ps (alert, action, text, timeout, false) w0
                  (or_intror eq_refl) Hl) as [Ht|He];
        [discriminate Ht | now inversion He].
  - intros text r. unfold process_note, bind at 1, call.
    destruct (routing alert w) as [[[ps cfg]|e] w0]; [|discriminate].
    unfold bind at 1.
    destruct (note_loop raise_on_error cfg ps (alert, text, false) w0)
      as [[[[[a' text'] u']|e] w1] t1] eqn:Hl; [|discriminate].
    destruct u'.
    + unfold bind, call.
      destruct (update_tags db a' (tags a') w1) as [[[]|e] w2]; [|discriminate].
      destruct (update_attributes db a' (attributes a') w2) as [[attrs|e] w3];
        [|discriminate].
      cbn. intros H. inversion H; subst. exfalso.
      inversion Hno as [|? ? _ Hno']; subst.
      eapply no_resync_after_cons; [|exact Hno']. reflexivity.
    + cbn. intros H. inversion H; subst.
      assert (Hm : forall o (st : NoteState),
                 snd st = true \/ st = (alert, text, false) ->
                 snd (merge_note o st) = true \/ merge_note o st = (alert, text, false)).
      { intros o st [Ht|He].
        - left. destruct st as [[a b] u]. cbn in Ht. subst. now destruct o.
        - subst st. destruct o; cbn; auto. }
      destruct (note_loop_invariant raise_on_error cfg _ Hm ps (alert, text, false) w0
                  (or_intror eq_refl) Hl) as [Ht|He];
        [discriminate Ht | now inversion He].
  - intros status text r. unfold process_status, bind at 1, call.
    destruct (routing alert w) as [[[ps cfg]|e] w0]; [|discriminate].
    unfold bind at 1.
    destruct (status_loop raise_on_error cfg ps (alert, status, text, false) w0)
      as [[[[[[a' status'] text'] u']|e] w1] t1] eqn:Hl; [|discriminate].
    destruct u'.
    + unfold bind, call.
      destruct (update_tags db a' (tags a') w1) as [[[]|e] w2]; [|discriminate].
      destruct (update_attributes db a' (attributes a') w2) as [[attrs|e] w3];
        [|discriminate].
      cbn. intros H. inversion H; subst. exfalso.
      inversion Hno as [|? ? _ Hno']; subst.
      eapply no_resync_after_cons; [|exact Hno']. reflexivity.
    + cbn. intros H. inversion H; subst.
      assert (Hm : forall o (st : StatusState),
                 snd st = true \/ st = (alert, status, text, false) ->
                 snd (merge_status o st) = true \/ merge_status o st = (alert, status, text, false)).
      { intros o st [Ht|He].
        - left. destruct st as [[[a b] c] u]. cbn in Ht. subst. now destruct o.
        - subst st. destruct o; cbn; auto. }
      destruct (status_loop_invariant raise_on_error cfg _ Hm ps (alert, status, text, false) w0
                  (or_intror eq_refl) Hl) as [Ht|He];
        [discriminate Ht | now inversion He].
Qed.

(** One iteration of a loop without retry: after the hook call and at
    most one log entry the loop goes on with the rest of the chain, or
    the hook call is the last event and the loop raises a control
    signal or, under the strict policy, the wrapped fault. *)
Lemma note_loop_step cfg (plugin : Plugin W) rest st w :
  (exists log st1 w1,
      at_most_one_log log
      /\ note_loop raise_on_error cfg (plugin :: rest) st w
         = prepend (EvHook (name plugin) TakeNote Canonical :: log)
             (note_loop raise_on_error cfg rest st1 w1))
  \/ (exists e w1,
      escapes raise_on_error "note" plugin e
      /\ note_loop raise_on_error cfg (plugin :: rest) st w
         = (Raise e, w1, [EvHook (name plugin) TakeNote Canonical])).
Proof.
  destruct st as [[alert text] u].
  destruct (take_note plugin alert text (Some cfg) w) as [[o|e] w1] eqn:Hh.
  - left. exists [], (merge_note o (alert, text, u)), w1. split; [now left|].
    now apply note_returned.
  - destruct (isinstance e [NotImplementedError]) eqn:Hn.
    + left. exists [], (alert, text, u), w1. split; [now left|].
      now apply note_unsupported with (e := e).
    + destruct (isinstance e [RejectException; ForwardingLoop; AlertaException]) eqn:Hc.
      * right. exists e, w1.
        split; [left; exact (proj1 (proj2 (proj2 (proj2 (named_is_control_signal e)))) Hc)|]. now apply note_signal.
      * rewrite (note_fault raise_on_error cfg plugin rest alert text u w Hh Hn Hc).
        unfold escapes. destruct raise_on_error.
        -- right. do 2 eexists. split; [right; split; [reflexivity|eexists; reflexivity]|].
           reflexivity.
        -- left. do 3 eexists. split; [right; eexists; reflexivity|]. reflexivity.
Qed.

Lemma action_loop_step cfg (plugin : Plugin W) rest alert action text timeout u w :
  is_suppressed alert = false ->
  (exists log st1 w1,
      at_most_one_log log
      /\ action_loop raise_on_error cfg (plugin :: rest) (alert, action, text, timeout, u) w
         = prepend (EvHook (name plugin) TakeAction Canonical :: log)
             (action_loop raise_on_error cfg rest st1 w1))
  \/ (exists e w1,
      escapes raise_on_error "action" plugin e
      /\ action_loop raise_on_error cfg (plugin :: rest) (alert, action, text, timeout, u) w
         = (Raise e, w1, [EvHook (name plugin) TakeAction Canonical])).
Proof.
  intros Hs.
  destruct (take_action plugin alert action text timeout (Some cfg) w) as [[o|e] w1] eqn:Hh.
  - left. exists [], (merge_action o (alert, action, text, timeout, u)), w1.
    split; [now left|]. now apply action_returned.
  - destruct (isinstance e [NotImplementedError]) eqn:Hn.
    + left. exists [], (alert, action, text, timeout, u), w1. split; [now left|].
      now apply action_unsupported with (e := e).
    + destruct (isinstance e [RejectException; ForwardingLoop; InvalidAction; AlertaException]) eqn:Hc.
      * right. exists e, w1.
        split; [left; exact (proj1 (proj2 (proj2 (named_is_control_signal e))) Hc)|]. now apply action_signal.
      * rewrite (action_fault raise_on_error cfg plugin rest alert action text timeout u w
                   Hs Hh Hn Hc).
        unfold escapes. destruct raise_on_error.
        -- right. do 2 eexists. split; [right; split; [reflexivity|eexists; reflexivity]|].
           reflexivity.
        -- left. do 3 eexists. split; [right; eexists; reflexivity|]. reflexivity.
Qed.

Lemma delete_loop_step cfg (plugin : Plugin W) rest alert w :
  (exists log v w1,
      at_most_one_log log
      /\ delete_loop raise_on_error cfg (plugin :: rest) alert true w
         = prepend (EvHook (name plugin) Delete Canonical :: log)
             (delete_loop raise_on_error cfg rest alert v w1))
  \/ (exists e w1,
      escapes raise_on_error "delete" plugin e
      /\ delete_loop raise_on_error cfg (plugin :: rest) alert true w
         = (Raise e, w1, [EvHook (name plugin) Delete Canonical])).
Proof.
  destruct (delete plugin alert (Some cfg) w) as [[o|e] w1] eqn:Hh.
  - left. exists [], o, w1. split; [now left|]. now apply delete_returned.
  - destruct (isinstance e [NotImplementedError]) eqn:Hn.
    + left. exists [], true, w1. split; [now left|].
      now apply delete_unsupported with (e := e).
    + destruct (isinstance e [RejectException; AlertaException]) eqn:Hc.
      * right. exists e, w1.
        split; [left; exact (proj2 (proj2 (proj2 (proj2 (named_is_control_signal e)))) Hc)|]. now apply delete_signal.
      * rewrite (delete_fault raise_on_error cfg plugin rest alert w Hh Hn Hc).
        unfold escapes. destruct raise_on_error.
        -- right. do 2 eexists. split; [right; split; [reflexivity|eexists; reflexivity]|].
           reflexivity.
        -- left. do 3 eexists. split; [right; eexists; reflexivity|]. reflexivity.
Qed.

Lemma hook_calls_log log t :
  at_most_one_log log -> hook_calls (log ++ t) = hook_calls t.
Proof. intros [->|[msg ->]]; reflexivity. Qed.

Lemma note_loop_calls_all cfg (ps : list (Plugin W)) st w st' w' t :
  note_loop raise_on_error cfg ps st w = (Ok st', w', t) ->
  hook_calls t = map (fun p => (name p, Canonical)) ps.
Proof.
  revert st w t. induction ps as [|plugin rest IH]; intros st w t Hrun.
  - cbn in Hrun. now inversion Hrun.
  - destruct (note_loop_step cfg plugin rest st w)
      as [(log & st1 & w1 & Hlog & Hstep)|(e & w1 & _ & Hstep)];
      rewrite Hstep in Hrun; [|discriminate Hrun].
    destruct (note_loop raise_on_error cfg rest st1 w1) as [[r w2] t2] eqn:Hl.
    cbn in Hrun. inversion Hrun; subst.
    cbn [hook_calls map]. rewrite (hook_calls_log _ Hlog). f_equal.
    eapply IH. exact Hl.
Qed.

(** X6.  The note pipeline has no suppressed-alert short-circuit: when
    it returns, the take_note hook of every plugin of the chain has
    been invoked exactly once, in chain order and with config, whether
    or not the alert is suppressed. *)
Theorem note_pipeline_invokes_every_plugin alert text w ps cfg w0 r w' t :
  routing alert w = (Ok (ps, cfg), w0) ->
  process_note routing db raise_on_error alert text w = (Ok r, w', t) ->
  hook_calls t = map (fun p => (name p, Canonical)) ps.
Proof.
  intros Hr. unfold process_note.
  erewrite bind_ok by (apply call_run; eassumption). cbn beta iota.
  unfold bind at 1.
  destruct (note_loop raise_on_error cfg ps (alert, text, false) w0)
    as [[[[[a' text'] u']|e] w1] t1] eqn:Hl; [|discriminate].
  apply note_loop_calls_all in Hl.
  destruct u'.
  - unfold bind, call.
    destruct (update_tags db a' (tags a') w1) as [[[]|e] w2]; [|discriminate].
    destruct (update_attributes db a' (attributes a') w2) as [[attrs|e] w3];
      [|discriminate].
    cbn. intros H. inversion H; subst. cbn [hook_calls].
    now rewrite hook_calls_app, app_nil_r.
  - cbn. intros H. inversion H; subst. cbn [hook_calls].
    now rewrite app_nil_r.
Qed.

(** X7.  In the action, note and delete loops the hooks are invoked in
    chain order, each plugin at most once and none skipped before a
    later one runs: the hook calls of a run, whatever its outcome, are
    an initial segment of the chain, all in the canonical shape. *)
Theorem hooks_follow_chain_order cfg (ps : list (Plugin W)) w :
  (forall st,
      exists k, hook_calls (trace_of (action_loop raise_on_error cfg ps st w))
                = firstn k (map (fun p => (name p, Canonical)) ps))
  /\ (forall st,
      exists k, hook_calls (trace_of (note_loop raise_on_error cfg ps st w))
                = firstn k (map (fun p => (name p, Canonical)) ps))
  /\ (forall alert verdict,
      exists k, hook_calls (trace_of (delete_loop raise_on_error cfg ps alert verdict w))
                = firstn k (map (fun p => (name p, Canonical)) ps)).
Proof.
  repeat match goal with |- _ /\ _ => split end.
  - revert w. induction ps as [|plugin rest IH]; intros w st.
    + exists 0. reflexivity.
    + destruct st as [[[[alert action] text] timeout] u].
      destruct (is_suppressed alert) eqn:Hs.
      * exists 0. now rewrite action_loop_suppressed.
      * destruct (action_loop_step cfg plugin rest alert action text timeout u w Hs)
          as [(log & st1 & w1 & Hlog & Hstep)|(e & w1 & _ & Hstep)]; rewrite Hstep.
        -- destruct (IH w1 st1) as [k Hk]. exists (S k).
           destruct (action_loop raise_on_error cfg rest st1 w1) as [[r w2] t2].
           unfold trace_of in *. cbn in *.
           now rewrite (hook_calls_log _ Hlog), Hk.
        -- exists 1. reflexivity.
  - revert w. induction ps as [|plugin rest IH]; intros w st.
    + exists 0. reflexivity.
    + destruct (note_loop_step cfg plugin rest st w)
        as [(log & st1 & w1 & Hlog & Hstep)|(e & w1 & _ & Hstep)]; rewrite Hstep.
      * destruct (IH w1 st1) as [k Hk]. exists (S k).
        destruct (note_loop raise_on_error cfg rest st1 w1) as [[r w2] t2].
        unfold trace_of in *. cbn in *.
        now rewrite (hook_calls_log _ Hlog), Hk.
      * exists 1. reflexivity.
  - revert w. induction ps as [|plugin rest IH]; intros w alert verdict.
    + exists 0. reflexivity.
    + destruct verdict; [|exists 0; now rewrite delete_loop_denied].
      destruct (delete_loop_step cfg plugin rest alert w)
        as [(log & v & w1 & Hlog & Hstep)|(e & w1 & _ & Hstep)]; rewrite Hstep.
      * destruct (IH w1 alert v) as [k Hk]. exists (S k).
        destruct (delete_loop raise_on_error cfg rest alert v w1) as [[r w2] t2].
        unfold trace_of in *. cbn in *.
        now rewrite (hook_calls_log _ Hlog), Hk.
      * exists 1. reflexivity.
Qed.

(** X8.  What the action, note and delete loops can raise: only a
    domain control signal raised by a hook of the chain or, under the
    strict policy, the ApiError that names the stage and a plugin of
    the chain.  Under the lenient policy these loops raise nothing but
    control signals. *)
Theorem plain_loops_raise_only cfg (ps : list (Plugin W)) w e w' t :
  (forall st,
      action_loop raise_on_error cfg ps st w = (Raise e, w', t) ->
      exists plugin, In plugin ps /\ escapes raise_on_error "action" plugin e)
  /\ (forall st,
      note_loop raise_on_error cfg ps st w = (Raise e, w', t) ->
      exists plugin, In plugin ps /\ escapes raise_on_error "note" plugin e)
  /\ (forall alert verdict,
      delete_loop raise_on_error cfg ps alert verdict w = (Raise e, w', t) ->
      exists plugin, In plugin ps /\ escapes raise_on_error "delete" plugin e).
Proof.
  repeat match goal with |- _ /\ _ => split end.
  - revert w t. induction ps as [|plugin rest IH]; intros w t st Hrun.
    + cbn in Hrun. discriminate Hrun.
    + destruct st as [[[[alert action] text] timeout] u].
      destruct (is_suppressed alert) eqn:Hs.
      * rewrite action_loop_suppressed in Hrun by assumption. discriminate Hrun.
      * destruct (action_loop_step cfg plugin rest alert action text timeout u w Hs)
          as [(log & st1 & w1 & Hlog & Hstep)|(e1 & w1 & Hesc & Hstep)];
          rewrite Hstep in Hrun.
        -- destruct (action_loop raise_on_error cfg rest st1 w1) as [[r w2] t2] eqn:Hl.
           cbn in Hrun. inversion Hrun; subst.
           destruct (IH _ _ _ Hl) as [q [Hin Hq]]. exists q. split; [now right | exact Hq].
        -- inversion Hrun; subst. exists plugin. split; [now left | exact Hesc].
  - revert w t. induction ps as [|plugin rest IH]; intros w t st Hrun.
    + cbn in Hrun. discriminate Hrun.
    + destruct (note_loop_step cfg plugin rest st w)
        as [(log & st1 & w1 & Hlog & Hstep)|(e1 & w1 & Hesc & Hstep)];
        rewrite Hstep in Hrun.
      * destruct (note_loop raise_on_error cfg rest st1 w1) as [[r w2] t2] eqn:Hl.
        cbn in Hrun. inversion Hrun; subst.
        destruct (IH _ _ _ Hl) as [q [Hin Hq]]. exists q. split; [now right | exact Hq].
      * inversion Hrun; subst. exists plugin. split; [now left | exact Hesc].
  - revert w t. induction ps as [|plugin rest IH]; intros w t alert verdict Hrun.
    + cbn in Hrun. discriminate Hrun.
    + destruct verdict; [|rewrite delete_loop_denied in Hrun; discriminate Hrun].
      destruct (delete_loop_step cfg plugin rest alert w)
        as [(log & v & w1 & Hlog & Hstep)|(e1 & w1 & Hesc & Hstep)];
        rewrite Hstep in Hrun.
      * destruct (delete_loop raise_on_error cfg rest alert v w1) as [[r w2] t2] eqn:Hl.
        cbn in Hrun. inversion Hrun; subst.
        destruct (IH _ _ _ _ Hl) as [q [Hin Hq]]. exists q. split; [now right | exact Hq].
      * inversion Hrun; subst. exists plugin. split; [now left | exact Hesc].
Qed.

(** *** Which events a loop emits *)

Section LoopEvents.

Variable P : Event -> Prop.
Hypothesis P_log : forall msg, P (EvLog msg).

Lemma pre_receive_loop_trace cfg (ps : list (Plugin W)) alert w :
  (forall n s, P (EvHook n PreReceive s)) ->
  Forall P (trace_of (pre_receive_loop raise_on_error cfg ps alert w)).
Proof.
  intros Hh. revert alert w. induction ps as [|plugin rest IH]; intros alert w.
  - constructor.
  - cbn [pre_receive_loop]. repeat trace_step; auto.
Qed.

Lemma post_receive_loop_trace skip cfg (ps : list (Plugin W)) alert u w :
  (forall n s, P (EvHook n PostReceive s)) ->
  Forall P (trace_of (post_receive_loop raise_on_error skip cfg ps alert u w)).
Proof.
  intros Hh. revert alert u w. induction ps as [|plugin rest IH]; intros alert u w.
  - constructor.
  - cbn [post_receive_loop]. repeat trace_step; auto.
Qed.

Lemma action_loop_trace cfg (ps : list (Plugin W)) st w :
  (forall n, P (EvHook n TakeAction Canonical)) ->
  Forall P (trace_of (action_loop raise_on_error cfg ps st w)).
Proof.
  intros Hh. revert st w. induction ps as [|plugin rest IH]; intros st w.
  - constructor.
  - destruct st as [[[[alert action] text] timeout] u].
    cbn [action_loop]. repeat trace_step; auto.
Qed.

Lemma note_loop_trace cfg (ps : list (Plugin W)) st w :
  (forall n, P (EvHook n TakeNote Canonical)) ->
  Forall P (trace_of (note_loop raise_on_error cfg ps st w)).
Proof.
  intros Hh. revert st w. induction ps as [|plugin rest IH]; intros st w.
  - constructor.
  - destruct st as [[alert text] u].
    cbn [note_loop]. repeat trace_step; auto.
Qed.

Lemma status_loop_trace cfg (ps : list (Plugin W)) st w :
  (forall n s, P (EvHook n StatusChange s)) ->
  Forall P (trace_of (status_loop raise_on_error cfg ps st w)).
Proof.
  intros Hh. revert st w. induction ps as [|plugin rest IH]; intros st w.
  - constructor.
  - destruct st as [[[alert status] text] u].
    cbn [status_loop]. repeat trace_step; auto.
Qed.

Lemma delete_loop_trace cfg (ps : list (Plugin W)) alert verdict w :
  (forall n, P (EvHook n Delete Canonical)) ->
  Forall P (trace_of (delete_loop raise_on_error cfg ps alert verdict w)).
Proof.
  intros Hh. revert verdict w. induction ps as [|plugin rest IH]; intros verdict w.
  - constructor.
  - cbn [delete_loop]. repeat trace_step; auto.
Qed.

End LoopEvents.

(** X9.  Every pipeline stays within its own calls.  The action, note
    and status pipelines emit only the routing lookup, hook calls of
    their own kind (action and note hooks only with config), log
    entries and the two resync calls: they never call lifecycle
    resolution or delete().  The delete pipeline never resyncs and calls
    only delete hooks with config; the receive pipeline calls only
    pre- and post-receive hooks and never delete(). *)
Theorem pipelines_emit_only_their_events alert w :
  (forall action text timeout,
      Forall (fun ev => resyncing_pipeline_event TakeAction false ev = true)
        (trace_of (process_action routing db raise_on_error alert action text timeout w)))
  /\ (forall text,
      Forall (fun ev => resyncing_pipeline_event TakeNote false ev = true)
        (trace_of (process_note routing db raise_on_error alert text w)))
  /\ (forall status text,
      Forall (fun ev => resyncing_pipeline_event StatusChange true ev = true)
        (trace_of (process_status routing db raise_on_error alert status text w)))
  /\ Forall (fun ev => delete_pipeline_event ev = true)
        (trace_of (process_delete routing db raise_on_error alert w))
  /\ Forall (fun ev => receive_pipeline_event ev = true)
        (trace_of (process_alert routing db raise_on_error alert w)).
Proof.
  repeat match goal with |- _ /\ _ => split end.
  - intros action text timeout. unfold process_action.
    apply trace_bind; [now apply trace_call|]. intros [ps cfg] w0.
    apply trace_bind; [apply action_loop_trace; reflexivity|].
    intros [[[[a b] c] d] u] w1. repeat trace_step; reflexivity.
  - intros text. unfold process_note.
    apply trace_bind; [now apply trace_call|]. intros [ps cfg] w0.
    apply trace_bind; [apply note_loop_trace; reflexivity|].
    intros [[a b] u] w1. repeat trace_step; reflexivity.
  - intros status text. unfold process_status.
    apply trace_bind; [now apply trace_call|]. intros [ps cfg] w0.
    apply trace_bind; [apply status_loop_trace; intros; reflexivity|].
    intros [[[a b] c] u] w1. repeat trace_step; reflexivity.
  - unfold process_delete.
    apply trace_bind; [now apply trace_call|]. intros [ps cfg] w0.
    apply trace_bind; [apply delete_loop_trace; reflexivity|].
    intros v w1. repeat trace_step; reflexivity.
  - unfold process_alert.
    apply trace_bind; [now apply trace_call|]. intros [ps cfg] w0.
    apply trace_bind; [apply pre_receive_loop_trace; reflexivity|].
    intros [a skip] w1.
    apply trace_bind.
    { eapply Forall_impl; [|apply resolve_lifecycle_events].
      intros []; cbn; intros H; solve [reflexivity | discriminate H]. }
    intros a2 w2.
    apply trace_bind; [now apply trace_call|]. intros [ps' cfg'] w3.
    apply trace_bind; [apply post_receive_loop_trace; reflexivity|].
    intros [a3 u] w4. repeat trace_step; reflexivity.
Qed.

Lemma bind_head A B (m : M W A) (f : A -> M W B) w r w1 ev tl :
  m w = (r, w1, ev :: tl) ->
  exists r' w' tl', bind m f w = (r', w', ev :: tl').
Proof.
  intros H. unfold bind. rewrite H. destruct r as [a|e].
  - destruct (f a w1) as [[r' w'] t']. cbn. now eauto.
  - now eauto.
Qed.

Lemma with_retry_head A n hook (h : option Config -> Ext W A) cfg K w :
  exists r w1 tl, with_retry n hook h cfg K w = (r, w1, EvHook n hook Canonical :: tl).
Proof.
  unfold with_retry, try_except, call.
  destruct (h (Some cfg) w) as [[a|e] w0]; [now eauto|].
  match goal with |- context [prepend _ ?x] => destruct x as [[r w1] t1] end.
  cbn. now eauto.
Qed.

(** X10.  The receive pipeline notices a suppressed alert only at the
    top of a pre-receive iteration.  When the plugin that suppresses the
    alert is the last of the pre-receive chain, the loop ends with
    skip_plugins false and the post-receive hooks do run on the
    suppressed alert; when another plugin follows, the loop stops with
    skip_plugins true before calling it. *)
Theorem suppression_by_last_pre_receive_plugin cfg (plugin : Plugin W) alert w a' w1 th :
  is_suppressed alert = false ->
  invoke_compat (name plugin) PreReceive (pre_receive plugin alert) cfg w
  = (Ok (Some a'), w1, th) ->
  is_suppressed a' = true ->
  pre_receive_loop raise_on_error cfg [plugin] alert w = (Ok (a', false), w1, th)
  /\ (forall q rest,
        pre_receive_loop raise_on_error cfg (plugin :: q :: rest) alert w
        = (Ok (a', true), w1, th))
  /\ (forall w0 a2 w2 t2 q rest cfg' w3,
        routing alert w0 = (Ok ([plugin], cfg), w) ->
        resolve_lifecycle db a' w1 = (Ok a2, w2, t2) ->
        routing a2 w2 = (Ok (q :: rest, cfg'), w3) ->
        exists r w' tl,
          process_alert routing db raise_on_error alert w0
          = (r, w', EvRouting alert :: th ++ t2
                    ++ EvRouting a2 :: EvHook (name q) PostReceive Canonical :: tl)).
Proof.
  intros Hs Hi Hs'.
  assert (H1 : pre_receive_loop raise_on_error cfg [plugin] alert w
               = (Ok (a', false), w1, th)).
  { erewrite pre_receive_returned by eassumption. cbn. now rewrite app_nil_r. }
  split; [exact H1|]. split.
  - intros q rest. erewrite pre_receive_returned by eassumption. cbn beta iota.
    rewrite pre_receive_loop_suppressed by assumption. cbn. now rewrite app_nil_r.
  - intros w0 a2 w2 t2 q rest cfg' w3 Hr Hres Hr2. unfold process_alert.
    erewrite bind_ok by (apply call_run; eassumption). cbn beta iota.
    erewrite bind_ok by eassumption. cbn beta iota.
    erewrite bind_ok by eassumption.
    erewrite bind_ok by (apply call_run; eassumption). cbn beta iota.
    rewrite post_receive_loop_cons.
    destruct (with_retry_head (name q) PostReceive (post_receive q a2) cfg'
                (post_receive_clauses raise_on_error q) w3) as (r0 & w4 & tl0 & Hh).
    destruct (bind_head _ (fun updated => match updated with
                | Some a => post_receive_loop raise_on_error false cfg' rest a true
                | None => post_receive_loop raise_on_error false cfg' rest a2 false
                end) _ Hh) as (r1 & w5 & tl1 & Hb).
    match goal with
    | |- context [bind (bind ?m ?f) ?g] =>
        destruct (bind_head (bind m f) g w3 Hb) as (r2 & w6 & tl2 & Hb2)
    end.
    rewrite Hb2. cbn. rewrite <- ?app_assoc. cbn. now eauto.
Qed.

(** X11.  A fault of the resync is never classified: when update_tags
    or update_attributes raises after the action, note or status loop,
    the pipeline raises that exception as it is under either policy,
    and after a failed update_tags no update_attributes call is made. *)
Theorem resync_faults_propagate_unchanged alert w ps cfg w0 a1 w1 t1 e :
  routing alert w = (Ok (ps, cfg), w0) ->
  (forall action text timeout action1 text1 timeout1,
      action_loop raise_on_error cfg ps (alert, action, text, timeout, false) w0
      = (Ok (a1, action1, text1, timeout1, true), w1, t1) ->
      (forall w2,
          update_tags db a1 (tags a1) w1 = (Raise e, w2) ->
          process_action routing db raise_on_error alert action text timeout w
          = (Raise e, w2, EvRouting alert :: t1 ++ [EvUpdateTags a1 (tags a1)]))
      /\ (forall w2 w3,
          update_tags db a1 (tags a1) w1 = (Ok tt, w2) ->
          update_attributes db a1 (attributes a1) w2 = (Raise e, w3) ->
          process_action routing db raise_on_error alert action text timeout w
          = (Raise e, w3,
             EvRouting alert
             :: t1 ++ [EvUpdateTags a1 (tags a1); EvUpdateAttributes a1 (attributes a1)])))
  /\ (forall text text1,
      note_loop raise_on_error cfg ps (alert, text, false) w0 = (Ok (a1, text1, true), w1, t1) ->
      (forall w2,
          update_tags db a1 (tags a1) w1 = (Raise e, w2) ->
          process_note routing db raise_on_error alert text w
          = (Raise e, w2, EvRouting alert :: t1 ++ [EvUpdateTags a1 (tags a1)]))
      /\ (forall w2 w3,
          update_tags db a1 (tags a1) w1 = (Ok tt, w2) ->
          update_attributes db a1 (attributes a1) w2 = (Raise e, w3) ->
          process_note routing db raise_on_error alert text w
          = (Raise e, w3,
             EvRouting alert
             :: t1 ++ [EvUpdateTags a1 (tags a1); EvUpdateAttributes a1 (attributes a1)])))
  /\ (forall status text status1 text1,
      status_loop raise_on_error cfg ps (alert, status, text, false) w0
      = (Ok (a1, status1, text1, true), w1, t1) ->
      (forall w2,
          update_tags db a1 (tags a1) w1 = (Raise e, w2) ->
          process_status routing db raise_on_error alert status text w
          = (Raise e, w2, EvRouting alert :: t1 ++ [EvUpdateTags a1 (tags a1)]))
      /\ (forall w2 w3,
          update_tags db a1 (tags a1) w1 = (Ok tt, w2) ->
          update_attributes db a1 (attributes a1) w2 = (Raise e, w3) ->
          process_status routing db raise_on_error alert status text w
          = (Raise e, w3,
             EvRouting alert
             :: t1 ++ [EvUpdateTags a1 (tags a1); EvUpdateAttributes a1 (attributes a1)]))).
Proof.
  intros Hr. repeat match goal with |- _ /\ _ => split end.
  - intros action text timeout action1 text1 timeout1 Hl. split.
    + intros w2 Ht. unfold process_action.
      erewrite bind_ok by (apply call_run; eassumption). cbn beta iota.
      erewrite bind_ok by eassumption. cbn beta iota.
      erewrite bind_raise by (apply call_run; eassumption). reflexivity.
    + intros w2 w3 Ht Ha. unfold process_action.
      erewrite bind_ok by (apply call_run; eassumption). cbn beta iota.
      erewrite bind_ok by eassumption. cbn beta iota.
      erewrite bind_ok by (apply call_run; eassumption).
      erewrite bind_raise by (apply call_run; eassumption). reflexivity.
  - intros text text1 Hl. split.
    + intros w2 Ht. unfold process_note.
      erewrite bind_ok by (apply call_run; eassumption). cbn beta iota.
      erewrite bind_ok by eassumption. cbn beta iota.
      erewrite bind_raise by (apply call_run; eassumption). reflexivity.
    + intros w2 w3 Ht Ha. unfold process_note.
      erewrite bind_ok by (apply call_run; eassumption). cbn beta iota.
      erewrite bind_ok by eassumption. cbn beta iota.
      erewrite bind_ok by (apply call_run; eassumption).
      erewrite bind_raise by (apply call_run; eassumption). reflexivity.
  - intros status text status1 text1 Hl. split.
    + intros w2 Ht. unfold process_status.
      erewrite bind_ok by (apply call_run; eassumption). cbn beta iota.
      erewrite bind_ok by eassumption. cbn beta iota.
      erewrite bind_raise by (apply call_run; eassumption). reflexivity.
    + intros w2 w3 Ht Ha. unfold process_status.
      erewrite bind_ok by (apply call_run; eassumption). cbn beta iota.
      erewrite bind_ok by eassumption. cbn beta iota.
      erewrite bind_ok by (apply call_run; eassumption).
      erewrite bind_raise by (apply call_run; eassumption). reflexivity.
Qed.

(** X12.  The delete pipeline calls the alert model's delete() at most
    once, on the alert it was given and as the last event of the run;
    and it returns true only after such a call that itself returned
    true. *)
Theorem deletion_is_last_and_guarded alert w r w' t :
  process_delete routing db raise_on_error alert w = (r, w', t) ->
  exists t1,
    Forall (fun ev => is_delete_event ev = false) t1
    /\ (t = t1 \/ t = t1 ++ [EvDelete alert])
    /\ (r = Ok true ->
        t = t1 ++ [EvDelete alert]
        /\ exists w1, alert_delete db alert w1 = (Ok true, w')).
Proof.
  unfold process_delete, bind at 1, call.
  destruct (routing alert w) as [[[ps cfg]|e] w0].
  2:{ intros H. inversion H; subst. exists [EvRouting alert].
      split; [repeat constructor|]. split; [now left | discriminate]. }
  unfold bind.
  assert (Hev := delete_loop_trace (fun ev => is_delete_event ev = false)
                   (fun _ => eq_refl) cfg ps alert true w0 (fun _ => eq_refl)).
  destruct (delete_loop raise_on_error cfg ps alert true w0) as [[[v|e] w1] t1].
  2:{ intros H. inversion H; subst. exists (EvRouting alert :: t1).
      split; [constructor; [reflexivity | exact Hev]|]. split; [now left | discriminate]. }
  unfold trace_of in Hev. cbn [snd] in Hev. destruct v.
  - destruct (alert_delete db alert w1) as [r0 w2] eqn:Hd. cbn.
    intros H. inversion H; subst. exists (EvRouting alert :: t1).
    split; [constructor; [reflexivity | exact Hev]|]. split; [now right|].
    intros ->. split; [reflexivity|]. now exists w1.
  - cbn. intros H. inversion H; subst. exists (EvRouting alert :: t1).
    split; [constructor; [reflexivity | exact Hev]|].
    split; [left; now rewrite app_nil_r | discriminate].
Qed.

(** X13.  A new alert with no plugin registered: when both routing
    lookups give the empty chain and neither the duplicate nor the
    correlation check finds a match, the receive pipeline calls create()
    once and returns the alert create() returned; no hook is invoked and
    no resync call is made. *)
Theorem new_alert_without_plugins alert w cfg w0 w1 w2 a' w3 cfg' w4 :
  routing alert w = (Ok ([], cfg), w0) ->
  is_duplicate db alert w0 = (Ok None, w1) ->
  is_correlated db alert w1 = (Ok None, w2) ->
  create db alert w2 = (Ok a', w3) ->
  routing a' w3 = (Ok ([], cfg'), w4) ->
  process_alert routing db raise_on_error alert w
  = (Ok a', w4,
     [EvRouting alert; EvIsDuplicate alert; EvIsCorrelated alert; EvCreate alert;
      EvRouting a']).
Proof.
  intros Hr Hd Hc Hn Hr2. unfold process_alert.
  erewrite bind_ok by (apply call_run; eassumption). cbn beta iota.
  erewrite bind_ok by reflexivity. cbn beta iota.
  erewrite bind_ok by (rewrite resolve_lifecycle_run, Hd, Hc, Hn; reflexivity).
  erewrite bind_ok by (apply call_run; eassumption). cbn beta iota.
  reflexivity.
Qed.

Lemma resolve_lifecycle_raises alert w e w' t :
  resolve_lifecycle db alert w = (Raise e, w', t) -> exc_class e = ApiError.
Proof.
  rewrite resolve_lifecycle_run.
  destruct (is_duplicate db alert w) as [[[m|]|e0] w1].
  - destruct (deduplicate db alert m w1) as [[a|e1] w2]; cbn; intros H;
      inversion H; reflexivity.
  - destruct (is_correlated db alert w1) as [[[m|]|e1] w2].
    + destruct (update db alert m w2) as [[a|e2] w3]; cbn; intros H;
        inversion H; reflexivity.
    + destruct (create db alert w2) as [[a|e2] w3]; cbn; intros H;
        inversion H; reflexivity.
    + intros H; inversion H; reflexivity.
  - intros H; inversion H; reflexivity.
Qed.

(** X14.  When lifecycle resolution fails, the receive pipeline ends
    there: it raises an ApiError, the routing is not looked up again, no
    post-receive hook runs and whatever the pre-receive plugins changed
    is not resynced; the last events of the run are lifecycle calls. *)
Theorem lifecycle_fault_ends_receive alert w ps cfg w0 a1 skip w1 t1 e w2 t2 :
  routing alert w = (Ok (ps, cfg), w0) ->
  pre_receive_loop raise_on_error cfg ps alert w0 = (Ok (a1, skip), w1, t1) ->
  resolve_lifecycle db a1 w1 = (Raise e, w2, t2) ->
  process_alert routing db raise_on_error alert w
  = (Raise e, w2, EvRouting alert :: t1 ++ t2)
  /\ exc_class e = ApiError
  /\ Forall (fun ev => is_lifecycle_event ev = true) t2.
Proof.
  intros Hr Hpre Hres. split; [|split].
  - unfold process_alert.
    erewrite bind_ok by (apply call_run; eassumption). cbn beta iota.
    erewrite bind_ok by eassumption. cbn beta iota.
    erewrite bind_raise by eassumption. reflexivity.
  - eapply resolve_lifecycle_raises. eassumption.
  - assert (H := resolve_lifecycle_events db a1 w1). now rewrite Hres in H.
Qed.

End FurtherProperties.

(** ** Runs of the further properties *)

(** X1, instance: a caller without admin rights asks for one of its two
    customers. *)
Lemma assign_customer_confined_witness :
  assign_customer "admin" two_customers (Some "acme") "admin:alerts" = Customer (Some "acme")
  /\ In "acme" (customers_of two_customers).
Proof.
  split; [reflexivity|].
  exact (assign_customer_confined "admin" two_customers (Some "acme") "admin:alerts"
           eq_refl eq_refl).
Defined.

(** X2, instance: the same caller asks for a customer it does not have. *)
Lemma assign_customer_refusal_witness :
  assign_customer "admin" two_customers (Some "initech") "admin:alerts"
  = Refused "not allowed to set customer to 'initech'" 400
  /\ 400%Z = 400%Z.
Proof.
  split; [reflexivity|].
  exact (proj2 (assign_customer_refuses_exactly "admin" two_customers (Some "initech")
                  "admin:alerts") _ _ eq_refl).
Defined.

(** X3, instance: no customer asked for, the request has exactly one. *)
Lemma assign_customer_returns_witness :
  (is_wanted None = true /\ Some "acme" = None)
  \/ (is_wanted None = false /\ customers_of one_customer = ["acme"]).
Proof.
  exact (assign_customer_returns "admin" one_customer None "admin:alerts" eq_refl).
Defined.

(** X4, instance: a plugin that returns nothing after the flag was set. *)
Lemma mutated_flag_witness :
  action_loop true demo_config [silent "s"] (stored_alert, "ack", "on it", None, true) tt
  = (Ok (stored_alert, "ack", "on it", None, true), tt, [EvHook "s" TakeAction Canonical])
  /\ true = true.
Proof.
  split; [reflexivity|].
  exact (proj1 (proj2 (mutated_flag_persists true demo_config [silent "s"] tt tt
                         [EvHook "s" TakeAction Canonical]))
           stored_alert "ack" "on it" None stored_alert "ack" "on it" None true eq_refl).
Defined.

(** X5, instance: the only plugin returns nothing. *)
Lemma no_resync_witness :
  process_action (route_all [silent "s"]) (demo_db None) true stored_alert "ack" "on it"
    (Some 60%Z) tt
  = (Ok (stored_alert, "ack", "on it", Some 60%Z), tt,
     [EvRouting stored_alert; EvHook "s" TakeAction Canonical])
  /\ (stored_alert, "ack", "on it", Some 60%Z) = (stored_alert, "ack", "on it", Some 60%Z).
Proof.
  split; [reflexivity|].
  refine (proj1 (no_resync_means_unchanged (route_all [silent "s"]) (demo_db None) true
                   stored_alert tt tt
                   (t := [EvRouting stored_alert; EvHook "s" TakeAction Canonical]) _)
            "ack" "on it" (Some 60%Z) _ eq_refl).
  repeat constructor.
Defined.

(** X6, instance: three plugins and a suppressed alert. *)
Lemma note_pipeline_witness :
  is_suppressed suppressed_alert = true
  /\ hook_calls
       (trace_of (process_note (route_all [tagger "a"; base_plugin "b"; tagger "c"])
                    (demo_db None) true suppressed_alert "seen" tt))
     = [("a", Canonical); ("b", Canonical); ("c", Canonical)].
Proof.
  split; [reflexivity|].
  exact (note_pipeline_invokes_every_plugin
           (route_all [tagger "a"; base_plugin "b"; tagger "c"]) (demo_db None) true
           suppressed_alert "seen" tt eq_refl eq_refl).
Defined.

(** X8, instance: a KeyError under the strict policy. *)
Lemma plain_loops_raise_witness :
  exists plugin,
    In plugin [tagger "t"; failing "bad" KeyError "host"]
    /\ escapes true "action" plugin
         (mkExc ApiError "Error while running action plugin 'bad': host").
Proof.
  exact (proj1 (plain_loops_raise_only true demo_config
                  [tagger "t"; failing "bad" KeyError "host"] tt
                  (mkExc ApiError "Error while running action plugin 'bad': host") tt
                  [EvHook "t" TakeAction Canonical; EvHook "bad" TakeAction Canonical])
           (stored_alert, "ack", "on it", None, false) eq_refl).
Defined.

(** X10, instance: the only pre-receive plugin puts the alert into
    blackout; the post-receive hook of the chain still runs. *)
Lemma last_plugin_suppression_witness :
  pre_receive_loop true demo_config [suppressing "blackout"] new_alert tt
  = (Ok (suppress new_alert, false), tt, [EvHook "blackout" PreReceive Canonical])
  /\ hook_calls (trace_of (process_alert (route_all [suppressing "blackout"]) (demo_db None)
                             true new_alert tt))
     = [("blackout", Canonical); ("blackout", Canonical)].
Proof.
  split.
  - exact (proj1 (suppression_by_last_pre_receive_plugin
                    (route_all [suppressing "blackout"]) (demo_db None) true demo_config
                    (suppressing "blackout") new_alert tt eq_refl eq_refl eq_refl)).
  - reflexivity.
Defined.

(** X11, instance: update_tags fails with a KeyError under the lenient
    policy. *)
Lemma resync_fault_witness :
  process_action (route_all [tagger "t"]) (failing_tags_db KeyError "tags") false
    stored_alert "ack" "on it" None tt
  = (Raise (mkExc KeyError "tags"), tt,
     EvRouting stored_alert
     :: [EvHook "t" TakeAction Canonical]
        ++ [EvUpdateTags (add_tag "t" stored_alert) (tags (add_tag "t" stored_alert))]).
Proof.
  exact (proj1 (proj1 (resync_faults_propagate_unchanged
                         (route_all [tagger "t"]) (failing_tags_db KeyError "tags") false
                         stored_alert tt (add_tag "t" stored_alert) tt
                         [EvHook "t" TakeAction Canonical] (mkExc KeyError "tags") eq_refl)
                  "ack" "on it" None "ack" "on it" None eq_refl)
           tt eq_refl).
Defined.

(** X12, instance: one plugin that allows the deletion. *)
Lemma deletion_witness :
  exists t1,
    Forall (fun ev => is_delete_event ev = false) t1
    /\ ([EvRouting stored_alert; EvHook "t" Delete Canonical; EvDelete stored_alert] = t1
        \/ [EvRouting stored_alert; EvHook "t" Delete Canonical; EvDelete stored_alert]
           = t1 ++ [EvDelete stored_alert])
    /\ (Ok true = Ok true ->
        [EvRouting stored_alert; EvHook "t" Delete Canonical; EvDelete stored_alert]
        = t1 ++ [EvDelete stored_alert]
        /\ exists w1, alert_delete (demo_db None) stored_alert w1 = (Ok true, tt)).
Proof.
  exact (deletion_is_last_and_guarded (route_all [tagger "t"]) (demo_db None) true
           stored_alert tt eq_refl).
Defined.

(** X13, instance: the router knows no plugin. *)
Lemma new_alert_witness :
  process_alert (route_all []) (demo_db None) true new_alert tt
  = (Ok (mkAlert "1" false ["prod"] [("region", "eu")]), tt,
     [EvRouting new_alert; EvIsDuplicate new_alert; EvIsCorrelated new_alert;
      EvCreate new_alert; EvRouting (mkAlert "1" false ["prod"] [("region", "eu")])]).
Proof.
  exact (new_alert_without_plugins (route_all []) (demo_db None) true new_alert tt
           eq_refl eq_refl eq_refl eq_refl eq_refl).
Defined.

(** X14, instance: create() fails with a rate limit, which reaches the
    caller as an ApiError. *)
Lemma lifecycle_fault_witness :
  process_alert (route_all [tagger "t"]) (failing_create_db RateLimit "slow down") false
    new_alert tt
  = (Raise (mkExc ApiError "slow down"), tt,
     EvRouting new_alert
     :: [EvHook "t" PreReceive Canonical]
        ++ [EvIsDuplicate (add_tag "t" new_alert); EvIsCorrelated (add_tag "t" new_alert);
            EvCreate (add_tag "t" new_alert)])
  /\ exc_class (mkExc ApiError "slow down") = ApiError
  /\ Forall (fun ev => is_lifecycle_event ev = true)
       [EvIsDuplicate (add_tag "t" new_alert); EvIsCorrelated (add_tag "t" new_alert);
        EvCreate (add_tag "t" new_alert)].
Proof.
  exact (lifecycle_fault_ends_receive (route_all [tagger "t"])
           (failing_create_db RateLimit "slow down") false new_alert tt
           eq_refl eq_refl eq_refl).
Defined.
